(** * blitzutils: replay and tank-statistics models, WoTinspector client

    A shallow embedding of [models.py] and [wotinspector.py] and the
    properties of region classification, perspective queries on a replay,
    replay identity resolution, the tank-statistics identifier and the
    upload de-duplication of the client.

    Python integers are [Z]; [str] is [string]; a [dict] is a [gmap];
    a raised exception is the [Raise] case of [result]. *)

From Stdlib Require Import ZArith Ascii String HexString List Lia.
From stdpp Require Import base option list gmap strings fin_maps.

Open Scope string_scope.
Open Scope list_scope.
Open Scope Z_scope.

(** ** Exceptions and fallible computations *)

(** The exception classes the modelled code can raise.  Messages are not
    modelled: no property below depends on their text. *)
Inductive exn : Type :=
| TypeError
| ValueError
| KeyError
| IndexError
| InvalidId        (* bson.errors.InvalidId *)
| OtherError.

Inductive result (A : Type) : Type :=
| Ok (a : A)
| Raise (e : exn).
Arguments Ok {A} a.
Arguments Raise {A} e.

#[global] Instance result_ret : MRet result := fun _ a => Ok a.
#[global] Instance result_bind : MBind result := fun _ _ f m =>
  match m with
  | Ok a => f a
  | Raise e => Raise e
  end.

(** [try: body  except Exception: raise handler_exn] *)
Definition try_except {A} (body : result A) (handler : exn -> result A) : result A :=
  match body with
  | Ok a => Ok a
  | Raise e => handler e
  end.

(** ** [class Region(str, Enum)] *)

Inductive Region : Type := ru | eu | com | asia | china | API.

#[global] Instance Region_eq_dec : EqDecision Region.
Proof. solve_decision. Defined.

(** ** The 12-byte [bson.ObjectId] *)

Record ObjectId : Type := mkObjectId { binary : list Z }.

#[global] Instance ObjectId_eq_dec : EqDecision ObjectId.
Proof. solve_decision. Defined.

(** ** Python values held in the [values] dict of a validator and passed to
    the class methods: [None], an [int], a [str], an [ObjectId], a
    [Region]. *)
Inductive pyval : Type :=
| VNone
| VInt (n : Z)
| VStr (s : string)
| VObjectId (o : ObjectId)
| VRegion (r : Region).

#[global] Instance pyval_eq_dec : EqDecision pyval.
Proof. solve_decision. Defined.

(** [x >= c] for a float constant [c] with an integral value: Python
    compares an [int] with a [float] exactly, so the comparison is the one
    of [Z]; [None], a [str] (and the other classes) raise [TypeError]. *)
Definition py_ge_float (x : pyval) (c : Z) : result bool :=
  match x with
  | VInt n => Ok (c <=? n)
  | _ => Raise TypeError
  end.

Module Region_.

(** [Region.API_regions] *)
Definition API_regions : list Region := [eu; com; asia; ru].

(** [Region.from_id]: the thresholds [31e8], [20e8], [10e8], [5e8]. *)
Definition from_id (account_id : pyval) : result Region :=
  try_except
    (c1 ← py_ge_float account_id 3100000000;
     if c1 : bool then Ok china else
     c2 ← py_ge_float account_id 2000000000;
     if c2 : bool then Ok asia else
     c3 ← py_ge_float account_id 1000000000;
     if c3 : bool then Ok com else
     c4 ← py_ge_float account_id 500000000;
     if c4 : bool then Ok eu else
     Ok ru)
    (fun _ => Raise ValueError).

(** [Region.matches]; the assertion on the type of [other_region] holds
    for every [Region]. *)
Definition matches (self other_region : Region) : bool :=
  if decide (self = other_region) then true
  else if decide (self = API) then bool_decide (other_region ∈ API_regions)
  else if decide (other_region = API) then bool_decide (self ∈ API_regions)
  else false.

End Region_.

(** The threshold bucket of a region, in the words of the specification. *)
Definition bucket (r : Region) (id : Z) : Prop :=
  match r with
  | china => 3100000000 <= id
  | asia => 2000000000 <= id < 3100000000
  | com => 1000000000 <= id < 2000000000
  | eu => 500000000 <= id < 1000000000
  | ru => id < 500000000
  | API => False
  end.

(** ** Battle enumerations *)

Inductive EnumWinnerTeam : Type := wt_draw | wt_one | wt_two.

Inductive EnumBattleResult : Type :=
| incomplete | not_win | win | loss | draw.

#[global] Instance EnumWinnerTeam_eq_dec : EqDecision EnumWinnerTeam.
Proof. solve_decision. Defined.

#[global] Instance EnumBattleResult_eq_dec : EqDecision EnumBattleResult.
Proof. solve_decision. Defined.

(** ** Replay records

    Of the per-player row only [dbid] (alias [ai]) and [squad_index]
    (alias [sq]) are read by the modelled methods; of the summary the two
    rosters, the raw result, the winner and the rows. *)

Record WoTBlitzReplayDetail : Type := mkDetail {
  dbid : Z;
  squad_index : option Z
}.

Record WoTBlitzReplaySummary : Type := mkSummary {
  winner_team : option EnumWinnerTeam;
  battle_result : option EnumBattleResult;
  allies : list Z;
  enemies : list Z;
  details : list WoTBlitzReplayDetail
}.

Record WoTBlitzReplayData : Type := mkData {
  view_url : option string;
  download_url : option string;
  data_id : option string;          (* the field [id] of the class *)
  summary : WoTBlitzReplaySummary
}.

Record WoTBlitzReplayJSON : Type := mkReplay {
  id : option string;
  status : string;
  data : WoTBlitzReplayData
}.

(** [x in l] on a list of ints *)
Definition py_in (x : Z) (l : list Z) : bool := bool_decide (x ∈ l).

(** [d[k].append(x)] on a [defaultdict(list)] *)
Definition defaultdict_append (d : gmap Z (list Z)) (k x : Z) : gmap Z (list Z) :=
  <[k := default [] (d !! k) ++ [x]]> d.

Module ReplayJSON.

(** [get_enemies] *)
Definition get_enemies (self : WoTBlitzReplayJSON) (player : option Z) : result (list Z) :=
  let s := summary (data self) in
  match player with
  | None => Ok (enemies s)
  | Some p =>
      if py_in p (allies s) then Ok (enemies s)
      else if py_in p (enemies s) then Ok (allies s)
      else Raise ValueError
  end.

(** [get_allies] *)
Definition get_allies (self : WoTBlitzReplayJSON) (player : option Z) : result (list Z) :=
  let s := summary (data self) in
  match player with
  | None => Ok (allies s)
  | Some p =>
      if py_in p (allies s) then Ok (allies s)
      else if py_in p (enemies s) then Ok (enemies s)
      else Raise ValueError
  end.

(** [get_players] *)
Definition get_players (self : WoTBlitzReplayJSON) : result (list Z) :=
  e ← get_enemies self None; a ← get_allies self None; Ok (e ++ a).

(** One iteration of the loop of [get_platoons] over the detail rows. *)
Definition platoon_step (allies : list Z)
    (acc : gmap Z (list Z) * gmap Z (list Z)) (d : WoTBlitzReplayDetail)
  : gmap Z (list Z) * gmap Z (list Z) :=
  let '(allied_platoons, enemy_platoons) := acc in
  match squad_index d with
  | Some sq =>
      if 0 <? sq then
        let account_id := dbid d in
        if py_in account_id allies
        then (defaultdict_append allied_platoons sq account_id, enemy_platoons)
        else (allied_platoons, defaultdict_append enemy_platoons sq account_id)
      else acc
  | None => acc
  end.

(** [get_platoons] *)
Definition get_platoons (self : WoTBlitzReplayJSON) (player : option Z)
  : result (gmap Z (list Z) * gmap Z (list Z)) :=
  allies ← get_allies self player;
  Ok (foldl (platoon_step allies) (∅, ∅) (details (summary (data self)))).

(** [get_battle_result]; [get_enemies()] and [get_allies()] are called
    without a player. *)
Definition get_battle_result (self : WoTBlitzReplayJSON) (player : option Z)
  : result EnumBattleResult :=
  let s := summary (data self) in
  try_except
    (if decide (battle_result s = Some incomplete) then Ok incomplete
     else
       in_enemies ← match player with
                    | Some p => e ← get_enemies self None; Ok (py_in p e)
                    | None => Ok false
                    end;
       if in_enemies : bool then
         if decide (battle_result s = Some win) then Ok loss
         else if decide (winner_team s = Some wt_draw) then Ok draw
         else Ok win
       else
         in_allies ← match player with
                     | None => Ok true
                     | Some p => a ← get_allies self None; Ok (py_in p a)
                     end;
         if in_allies : bool then
           if decide (battle_result s = Some win) then Ok win
           else if decide (winner_team s = Some wt_draw) then Ok draw
           else Ok loss
         else Ok incomplete)
    (fun _ => Raise OtherError).

End ReplayJSON.

(** [resultFor] in the words of the specification. *)
Definition resultFor (s : WoTBlitzReplaySummary) (p : option Z) : EnumBattleResult :=
  let raw := battle_result s in
  let in_roster (l : list Z) := match p with Some x => existsb (Z.eqb x) l | None => false end in
  if decide (raw = Some incomplete) then incomplete
  else if in_roster (enemies s) then
    (if decide (raw = Some win) then loss
     else if decide (winner_team s = Some wt_draw) then draw else win)
  else if (match p with None => true | Some _ => in_roster (allies s) end) then
    (if decide (raw = Some win) then win
     else if decide (winner_team s = Some wt_draw) then draw else loss)
  else incomplete.

(** ** Strings: [hex], slices, [zfill] *)

(** The digit characters of [hex] and [hexlify]: the table
    [0123456789abcdef] indexed by the digit. *)
Definition hex_digit (d : Z) : ascii :=
  match String.get (Z.to_nat d) "0123456789abcdef" with
  | Some c => c
  | None => "?"%char
  end.

(** The value of a hexadecimal digit character of either case, by its
    code: [0]-[9] are 48-57, [a]-[f] are 97-102, [A]-[F] are 65-70. *)
Definition hex_value (c : ascii) : option Z :=
  let code := Z.of_N (N_of_ascii c) in
  if (48 <=? code) && (code <=? 57) then Some (code - 48)
  else if (97 <=? code) && (code <=? 102) then Some (code - 87)
  else if (65 <=? code) && (code <=? 70) then Some (code - 55)
  else None.

(** The builtin [hex]: the sign, the prefix [0x] and the lowercase digits
    of the absolute value without leading zeros ([0x0] for zero), which
    is what the hexadecimal printer of the standard library prints. *)
Definition hex (n : Z) : string := HexString.of_Z n.

(** The [w] low hexadecimal digits of [n], most significant first. *)
Fixpoint hex_fixed (w : nat) (n : Z) : string :=
  match w with
  | O => ""
  | S w' => String (hex_digit ((n / 16 ^ Z.of_nat w') mod 16)) (hex_fixed w' n)
  end.

(** The number of hexadecimal digits of [n >= 0] without leading zeros
    (one digit for [0]). *)
Definition hex_len (n : Z) : nat := S (Z.to_nat (Z.log2 n / 4)).

(** [hex(x)] on a Python value: only an [int] has a hexadecimal form. *)
Definition py_hex (x : pyval) : result string :=
  match x with
  | VInt n => Ok (hex n)
  | _ => Raise TypeError
  end.

(** [s[n:]] *)
Fixpoint str_drop (n : nat) (s : string) : string :=
  match n, s with
  | O, _ => s
  | S n', String _ r => str_drop n' r
  | S _, "" => ""
  end.

(** ["0" * n] *)
Fixpoint zeros (n : nat) : string :=
  match n with
  | O => ""
  | S n' => String "0" (zeros n')
  end.

(** [str.zfill]: zeros go after a leading sign character. *)
Definition zfill (width : nat) (s : string) : string :=
  let fill := zeros (width - String.length s) in
  match s with
  | String c r =>
      if (Ascii.eqb c "+" || Ascii.eqb c "-")%bool
      then String c (fill +:+ r)
      else fill +:+ s
  | "" => fill
  end.

(** ** [bson.ObjectId] from a string *)

(** [bytes.fromhex]; the whitespace it skips between bytes is space, tab,
    newline, vertical tab, form feed and carriage return, the characters
    of [Ascii.is_space]. *)
Fixpoint bytes_fromhex (s : string) : option (list Z) :=
  match s with
  | "" => Some []
  | String c1 r1 =>
      if Ascii.is_space c1 then bytes_fromhex r1
      else
        match r1 with
        | String c2 r2 =>
            match hex_value c1, hex_value c2 with
            | Some top, Some bot =>
                match bytes_fromhex r2 with
                | Some bs => Some ((16 * top + bot) :: bs)
                | None => None
                end
            | _, _ => None
            end
        | "" => None
        end
  end.

(** [binascii.hexlify(...).decode()], the [str] of an [ObjectId] *)
Fixpoint hexlify (bs : list Z) : string :=
  match bs with
  | [] => ""
  | b :: r => String (hex_digit (b / 16)) (String (hex_digit (b mod 16)) (hexlify r))
  end.

Definition ObjectId_str (o : ObjectId) : string := hexlify (binary o).

(** [ObjectId(oid)] for a [str]: 24 characters that [bytes.fromhex]
    accepts, [InvalidId] otherwise. *)
Definition ObjectId_of_str (oid : string) : result ObjectId :=
  if (String.length oid =? 24)%nat then
    match bytes_fromhex oid with
    | Some bs => Ok (mkObjectId bs)
    | None => Raise InvalidId
    end
  else Raise InvalidId.

(** ** [class WGtankStat] *)

(** [values[k]] *)
Definition dict_get {V} (values : gmap string V) (k : string) : result V :=
  match values !! k with
  | Some v => Ok v
  | None => Raise KeyError
  end.

Module WGtankStat.

(** [mk_id(account_id, last_battle_time, tank_id = 0)] *)
Definition mk_id (account_id last_battle_time tank_id : pyval) : result ObjectId :=
  a ← py_hex account_id;
  t ← py_hex tank_id;
  l ← py_hex last_battle_time;
  ObjectId_of_str
    ((zfill 10 (str_drop 2 a) +:+ zfill 6 (str_drop 2 t)) +:+ zfill 8 (str_drop 2 l)).

(** The root validator [set_id] on the dict of validated fields. *)
Definition set_id (values : gmap string pyval) : result (gmap string pyval) :=
  try_except
    (vid ← dict_get values "id";
     values1 ← (if decide (vid = VNone) then
                  a ← dict_get values "account_id";
                  l ← dict_get values "last_battle_time";
                  t ← dict_get values "tank_id";
                  oid ← mk_id a l t;
                  Ok (<["id" := VObjectId oid]> values)
                else Ok values);
     match values1 !! "_region" with
     | None | Some VNone =>
         a ← dict_get values1 "account_id";
         r ← Region_.from_id a;
         Ok (<["_region" := VRegion r]> values1)
     | Some _ => Ok values1
     end)
    (fun _ => Raise ValueError).

End WGtankStat.

(** The value of a string of hexadecimal digits, [None] when a character
    is no digit. *)
Fixpoint hex_string_value (acc : Z) (s : string) : option Z :=
  match s with
  | "" => Some acc
  | String c r =>
      match hex_value c with
      | Some d => hex_string_value (16 * acc + d) r
      | None => None
      end
  end.

(** The three fixed-width segments of a 24-digit identifier, in the words
    of the specification: 10 digits of account, 6 of tank, 8 of time. *)
Definition split_id (s : string) : option (Z * Z * Z) :=
  match hex_string_value 0 (substring 0 10 s),
        hex_string_value 0 (substring 10 6 s),
        hex_string_value 0 (substring 16 8 s) with
  | Some a, Some t, Some l => Some (a, t, l)
  | _, _, _ => None
  end.

(** A string of lowercase hexadecimal digits only. *)
Fixpoint all_hex (s : string) : bool :=
  match s with
  | "" => true
  | String c r =>
      match hex_value c with
      | Some d => Ascii.eqb (hex_digit d) c && all_hex r
      | None => false
      end
  end.

(** ** [class WoTBlitzReplayData]: identity resolution *)

(** [str.split(sep)] for a one-character separator *)
Fixpoint split (sep : ascii) (s : string) : list string :=
  match s with
  | "" => [""]
  | String c r =>
      if Ascii.eqb c sep then "" :: split sep r
      else
        match split sep r with
        | h :: t => String c h :: t
        | [] => [String c ""]
        end
  end.

(** [l[-1:]] *)
Definition slice_last {A} (l : list A) : list A :=
  match last l with
  | Some x => [x]
  | None => []
  end.

(** [l[0]] *)
Definition index0 {A} (l : list A) : result A :=
  match l with
  | x :: _ => Ok x
  | [] => Raise IndexError
  end.

Module ReplayData.

Definition _ViewUrlBase : string := "https://replays.wotinspector.com/en/view/".
Definition _DLurlBase : string := "https://replays.wotinspector.com/en/download/".

(** The root validator [store_id] on the dict of the validated fields
    [id], [view_url] and [download_url], each [None] or a [str]. *)
Definition store_id (values : gmap string (option string))
  : result (gmap string (option string)) :=
  try_except
    (vid ← dict_get values "id";
     found ← match vid with
             | Some i => Ok (Some i)
             | None =>
                 vu ← dict_get values "view_url";
                 match vu with
                 | Some u => i ← index0 (slice_last (split "/" u)); Ok (Some i)
                 | None =>
                     du ← dict_get values "download_url";
                     match du with
                     | Some u => i ← index0 (slice_last (split "/" u)); Ok (Some i)
                     | None => Ok None
                     end
                 end
             end;
     match found with
     | None => Ok values
     | Some i =>
         Ok (<["download_url" := Some (_DLurlBase +:+ i)]>
               (<["view_url" := Some (_ViewUrlBase +:+ i)]>
                  (<["id" := Some i]> values)))
     end)
    (fun _ => Raise ValueError).

End ReplayData.

(** No [/] in a string. *)
Fixpoint no_slash (s : string) : bool :=
  match s with
  | "" => true
  | String c r => negb (Ascii.eqb c "/") && no_slash r
  end.

(** The trailing path segment of a URL, in the words of the specification:
    what follows the last [/], or the whole string when there is none. *)
Definition trailing_segment (url seg : string) : Prop :=
  no_slash seg = true /\
  (url = seg \/ exists pre, url = pre +:+ String "/" seg).

(** The identity fields after resolution to [i]. *)
Definition identity_agrees (values : gmap string (option string)) (i : string) : Prop :=
  values !! "id" = Some (Some i) /\
  values !! "view_url" = Some (Some (ReplayData._ViewUrlBase +:+ i)) /\
  values !! "download_url" = Some (Some (ReplayData._DLurlBase +:+ i)).

(** ** [class WoTinspector]: the client as a program over requests *)

(** What the client takes from outside the repository. *)
Class External : Type := {
  md5_hexdigest : list Z -> string;               (* md5().update(data).hexdigest() *)
  urlencode : list (string * pyval) -> string;    (* urlencode(params, quote_via=quote) *)
  b64encode : list Z -> list Z;
  parse_raw : string -> result WoTBlitzReplayJSON (* pydantic's parse_raw *)
}.

(** [WoTBlitzReplayJSON.from_str]: every exception is logged and gives
    [None]. *)
Definition from_str `{Ext : External} (content : string) : option WoTBlitzReplayJSON :=
  match parse_raw content with
  | Ok r => Some r
  | Raise _ => None
  end.

Record response : Type := mkResponse {
  resp_status : Z;
  resp_text : result string      (* [await resp.text()] *)
}.

(** A request program: the awaited calls of the client, each with the
    continuation on its outcome ([Raise] when the call raises). *)
Inductive prog (A : Type) : Type :=
| Ret (a : A)
| GetJSONModel (url : string) (k : result (option WoTBlitzReplayJSON) -> prog A)
| SessionPost (url : string) (headers : list (string * string))
    (payload : string * list Z) (k : result response -> prog A)
| Sleep (secs : Z) (k : prog A).
Arguments Ret {A} a.
Arguments GetJSONModel {A} url k.
Arguments SessionPost {A} url headers payload k.
Arguments Sleep {A} secs k.

Fixpoint prog_bind {A B} (m : prog A) (f : A -> prog B) : prog B :=
  match m with
  | Ret a => f a
  | GetJSONModel url k => GetJSONModel url (fun r => prog_bind (k r) f)
  | SessionPost url h p k => SessionPost url h p (fun r => prog_bind (k r) f)
  | Sleep t k => Sleep t (prog_bind k f)
  end.

#[global] Instance prog_mret : MRet prog := fun _ a => Ret a.
#[global] Instance prog_mbind : MBind prog := fun _ _ f m => prog_bind m f.

Record WoTinspector : Type := mkClient { REPLAY_N : Z }.

Module Client.

Definition URL_REPLAY_UL : string := "https://api.wotinspector.com/replay/upload?".
Definition URL_REPLAY_INFO : string :=
  "https://api.wotinspector.com/replay/upload?details=full&key=".
Definition MAX_RETRIES : nat := 3.
Definition SLEEP : Z := 1.

Definition get_url_replay_JSON (id : string) : string := URL_REPLAY_INFO +:+ id.

(** [get_replay]: an exception of the request is logged and gives [None]. *)
Definition get_replay (replay_id : string) : prog (option WoTBlitzReplayJSON) :=
  GetJSONModel (get_url_replay_JSON replay_id) (fun r =>
    Ret match r with
        | Ok replay => replay
        | Raise _ => None
        end).

(** The retry loop of [post_replay], [retries] iterations left. *)
Fixpoint post_loop `{Ext : External} (retries : nat) (url : string)
    (headers : list (string * string)) (payload : string * list Z)
  : prog (option WoTBlitzReplayJSON) :=
  match retries with
  | O => Ret None
  | S n =>
      SessionPost url headers payload (fun r =>
        match r with
        | Ok resp =>
            if resp_status resp =? 200 then
              match resp_text resp with
              | Ok body =>
                  match from_str body with
                  | Some replay => Ret (Some replay)
                  | None => Sleep SLEEP (post_loop n url headers payload)
                  end
              | Raise _ => Sleep SLEEP (post_loop n url headers payload)
              end
            else Sleep SLEEP (post_loop n url headers payload)
        | Raise _ => Sleep SLEEP (post_loop n url headers payload)
        end)
  end.

(** [post_replay] on a [bytes] payload.  [N] only labels log lines.  The
    first [try] block cannot raise on [bytes] data. *)
Definition post_replay `{Ext : External} (self : WoTinspector) (data : list Z)
    (filename : string) (account_id : Z) (title : string) (priv : bool)
  : prog (WoTinspector * option WoTBlitzReplayJSON) :=
  let self := mkClient (REPLAY_N self + 1) in
  let replay_id := md5_hexdigest data in
  json_resp ← get_replay replay_id;
  match json_resp with
  | Some r => Ret (self, Some r)
  | None =>
      let params := [("title", VStr title);
                     ("private", VInt (if priv then 1 else 0));
                     ("uploaded_by", VInt account_id);
                     ("details", VStr "full");
                     ("key", VStr replay_id)] in
      let url := URL_REPLAY_UL +:+ urlencode params in
      let headers := [("Content-type", "application/x-www-form-urlencoded")] in
      let payload := (filename, b64encode data) in
      replay ← post_loop MAX_RETRIES url headers payload;
      Ret (self, replay)
  end.

End Client.

(** ** Running a request program against a remote service *)

Inductive event : Type :=
| EvGet (url : string)
| EvPost (url : string) (headers : list (string * string)) (payload : string * list Z)
| EvSleep (secs : Z).

(** A remote service with state [W]: what a GET of the info endpoint and
    a POST answer, and the state they leave. *)
Class Service (W : Type) : Type := {
  serve_get : string -> W -> result (option WoTBlitzReplayJSON) * W;
  serve_post : string -> list (string * string) -> string * list Z -> W
               -> result response * W
}.

(** The result of a program, the final state of the service and the
    requests issued, oldest first. *)
Fixpoint run {A W} `{Svc : Service W} (p : prog A) (w : W) : A * W * list event :=
  match p with
  | Ret a => (a, w, [])
  | GetJSONModel url k =>
      let '(r, w1) := serve_get url w in
      let '(a, w2, tr) := run (k r) w1 in
      (a, w2, EvGet url :: tr)
  | SessionPost url h pl k =>
      let '(r, w1) := serve_post url h pl w in
      let '(a, w2, tr) := run (k r) w1 in
      (a, w2, EvPost url h pl :: tr)
  | Sleep t k =>
      let '(a, w2, tr) := run k w in
      (a, w2, EvSleep t :: tr)
  end.

Definition is_upload (e : event) : bool :=
  match e with
  | EvPost _ _ _ => true
  | _ => false
  end.

(** The number of upload requests in a trace. *)
Definition uploads (tr : list event) : nat := length (filter (fun e => is_upload e = true) tr).

(** *** Platoons, in the words of the specification *)

(** The row [d] belongs to platoon [k]: its index is [k] and positive. *)
Definition in_platoon (k : Z) (d : WoTBlitzReplayDetail) : bool :=
  match squad_index d with
  | Some sq => (sq =? k) && (0 <? sq)
  | None => false
  end.

(** The participants of platoon [k], in row order, on the side of the
    roster [al] ([ally = true]) or off it ([ally = false]). *)
Definition members (ally : bool) (al : list Z) (k : Z)
    (rows : list WoTBlitzReplayDetail) : list Z :=
  map dbid
    (List.filter (fun d => in_platoon k d && Bool.eqb (py_in (dbid d) al) ally) rows).

(** A grouping has a key only for a platoon with a member. *)
Definition group (l : list Z) : option (list Z) :=
  match l with
  | [] => None
  | _ => Some l
  end.

(** The participant [x] is listed in some platoon of the grouping [g]. *)
Definition grouped (g : gmap Z (list Z)) (x : Z) : Prop :=
  exists k l, g !! k = Some l /\ x ∈ l.

(** The reading under which a row of a participant of neither roster is
    left out of both groupings. *)
Definition unknown_rows_skipped (self : WoTBlitzReplayJSON) (p : option Z) : Prop :=
  forall ap ep, ReplayJSON.get_platoons self p = Ok (ap, ep) ->
    forall d, d ∈ details (summary (data self)) ->
      dbid d ∉ allies (summary (data self)) ->
      dbid d ∉ enemies (summary (data self)) ->
      ~ grouped ap (dbid d) /\ ~ grouped ep (dbid d).

(** The result seen from one side: [if_win] when the raw result is a win,
    a draw when the winner is recorded as a draw, [otherwise] else. *)
Definition seen_as (s : WoTBlitzReplaySummary) (if_win otherwise : EnumBattleResult)
  : EnumBattleResult :=
  if decide (battle_result s = Some win) then if_win
  else if decide (winner_team s = Some wt_draw) then draw
  else otherwise.

(** A replay of two allies and two enemies: participants 11 and 12
    against 21 and 22, with rows for the four of them and for 99 and 98,
    who are on neither roster. *)
Definition replay_example (raw : EnumBattleResult) (wt : EnumWinnerTeam)
  : WoTBlitzReplayJSON :=
  mkReplay None "ok"
    (mkData None None None
       (mkSummary (Some wt) (Some raw) [11; 12] [21; 22]
          [mkDetail 11 (Some 1); mkDetail 12 (Some 1); mkDetail 21 (Some 2);
           mkDetail 22 None; mkDetail 99 (Some 2); mkDetail 98 (Some 0)])).

(** The dict [v'] is [values] with the identity resolved to [i]: the
    three identity fields agree on [i] and every other key is as before. *)
Definition resolves_to (values v' : gmap string (option string)) (i : string) : Prop :=
  identity_agrees v' i /\
  forall k, k <> "id" -> k <> "view_url" -> k <> "download_url" ->
            v' !! k = values !! k.

(** A concrete outside world: every payload has the digest of the empty
    input, and the service already stores a record under every key. *)
Definition external_example : External := {|
  md5_hexdigest := fun _ => "d41d8cd98f00b204e9800998ecf8427e";
  urlencode := fun _ => "";
  b64encode := fun data => data;
  parse_raw := fun _ => Raise ValueError
|}.

Definition service_example : Service unit := {|
  serve_get := fun _ w => (Ok (Some (replay_example win wt_one)), w);
  serve_post := fun _ _ _ w => (Raise OtherError, w)
|}.

(** [s] is [n] left-zero-padded to [w] hexadecimal digits: exactly [w]
    lowercase digits whose value is [n]. *)
Definition padded (w : nat) (n : Z) (s : string) : Prop :=
  String.length s = w /\ all_hex s = true /\ hex_string_value 0 s = Some n.

(** The reading under which the identifier of every constructed record
    is derived from its own triple, whatever the payload supplies. *)
Definition id_always_derived : Prop :=
  forall values values' : gmap string pyval,
    WGtankStat.set_id values = Ok values' ->
    exists a l t oid,
      values !! "account_id" = Some a /\
      values !! "last_battle_time" = Some l /\
      values !! "tank_id" = Some t /\
      WGtankStat.mk_id a l t = Ok oid /\
      values' !! "id" = Some (VObjectId oid).

(** Validated fields of a payload for account 1, tank 2, time 3 that
    supplies an identifier of its own, twelve zero bytes. *)
Definition supplied_id : ObjectId := mkObjectId (replicate 12 0).

Definition values_example (vid : pyval) : gmap string pyval :=
  <["id" := vid]>
    (<["account_id" := VInt 1]>
       (<["last_battle_time" := VInt 3]> (<["tank_id" := VInt 2]> ∅))).

(** ** Further definitions for the properties of the remaining code *)

(** The same battle seen from the other side. *)
Definition opposite (r : EnumBattleResult) : EnumBattleResult :=
  match r with
  | win => loss
  | loss => win
  | other => other
  end.

(** A replay whose detail rows are all of roster members: 11 and 12
    against 21 and 22, every one of them in a platoon. *)
Definition replay_two_sides : WoTBlitzReplayJSON :=
  mkReplay None "ok"
    (mkData None None None
       (mkSummary (Some wt_one) (Some win) [11; 12] [21; 22]
          [mkDetail 11 (Some 1); mkDetail 21 (Some 2); mkDetail 12 (Some 1);
           mkDetail 22 (Some 2)])).

(** *** [class WoTBlitzReplayJSON]: the identifier of the record and of its
    data *)

(** The entries of the [values] dict that the root validator of
    [WoTBlitzReplayJSON] reads and writes: [id], absent ([None] here), or
    Python's [None] or a [str]; and [data], absent or the validated
    [WoTBlitzReplayData]. *)
Record json_values : Type := mkJsonValues {
  v_id : option (option string);
  v_data : option WoTBlitzReplayData
}.

(** The fields of a [WoTBlitzReplayData] that its own root validator
    works on. *)
Definition data_fields (d : WoTBlitzReplayData) : gmap string (option string) :=
  <["id" := data_id d]>
    (<["view_url" := view_url d]> (<["download_url" := download_url d]> ∅)).

(** [d.id = i] on a [WoTBlitzReplayData]: the class has
    [validate_assignment], so pydantic runs the root validator [store_id]
    of the class on the fields with the new value and stores what it
    returns. *)
Definition assign_id (d : WoTBlitzReplayData) (i : string) : result WoTBlitzReplayData :=
  v ← ReplayData.store_id (<["id" := Some i]> (data_fields d));
  new_id ← dict_get v "id";
  new_view ← dict_get v "view_url";
  new_dl ← dict_get v "download_url";
  Ok (mkData new_view new_dl new_id (summary d)).

Module ReplayJSONId.

(** [values['data']] *)
Definition values_data (values : json_values) : result WoTBlitzReplayData :=
  match v_data values with
  | Some d => Ok d
  | None => Raise KeyError
  end.

(** The root validator [store_id] of [WoTBlitzReplayJSON]. *)
Definition store_id (values : json_values) : result json_values :=
  try_except
    (match v_id values with
     | None | Some None =>
         d ← values_data values;
         Ok (mkJsonValues (Some (data_id d)) (v_data values))
     | Some (Some i) =>
         d ← values_data values;
         d' ← assign_id d i;
         Ok (mkJsonValues (Some (Some i)) (Some d'))
     end)
    (fun _ => Raise ValueError).

(** [get_id]; reading the two attributes raises nothing. *)
Definition get_id (self : WoTBlitzReplayJSON) : option string :=
  match id self with
  | Some i => Some i
  | None => data_id (data self)
  end.

End ReplayJSONId.

(** *** [class WoTinspector]: replay links *)

(** [l[-1]] *)
Definition index_last {A} (l : list A) : result A :=
  match last l with
  | Some x => Ok x
  | None => Raise IndexError
  end.

(** [str.rsplit(sep, 1)]: one split, at the last separator. *)
Fixpoint rsplit1 (sep : ascii) (s : string) : list string :=
  match s with
  | "" => [""]
  | String c r =>
      match rsplit1 sep r with
      | [a] => if Ascii.eqb c sep then [""; a] else [String c a]
      | a :: rest => String c a :: rest
      | [] => []
      end
  end.

(** What the HTML parser gives for a page: the [href] of every anchor, in
    document order, [None] for an anchor without one; or an exception. *)
Class Soup : Type := {
  find_all_hrefs : string -> result (list (option string))
}.

Module Links.

Definition URL_WI : string := "https://replays.wotinspector.com".
Definition URL_REPLAY_DL : string := URL_WI +:+ "/en/download/".
Definition URL_REPLAY_VIEW : string := URL_WI +:+ "/en/view/".

(** [get_url_replay_view] *)
Definition get_url_replay_view (replay_id : string) : string :=
  URL_REPLAY_VIEW +:+ replay_id.

(** [get_replay_id] *)
Definition get_replay_id (url : option string) : result (option string) :=
  match url with
  | Some u =>
      if String.prefix URL_REPLAY_DL u
      then i ← index_last (rsplit1 "/" u); Ok (Some i)
      else Ok None
  | None => Ok None
  end.

(** The loop of [parse_replay_ids] over the anchors; an exception ends it
    with the ids found so far. *)
Fixpoint collect_ids (links : list (option string)) (replay_ids : gset string)
  : gset string :=
  match links with
  | [] => replay_ids
  | link :: rest =>
      match get_replay_id link with
      | Ok (Some i) => collect_ids rest ({[i]} ∪ replay_ids)
      | Ok None => collect_ids rest replay_ids
      | Raise _ => replay_ids
      end
  end.

(** [parse_replay_ids] *)
Definition parse_replay_ids `{Sp : Soup} (doc : string) : gset string :=
  match find_all_hrefs doc with
  | Ok links => collect_ids links ∅
  | Raise _ => ∅
  end.

End Links.

(** A page with an anchor to a download, one to another site, the same
    download again and an anchor without [href]. *)
Definition soup_example : Soup := {|
  find_all_hrefs := fun _ =>
    Ok [Some "https://replays.wotinspector.com/en/download/abc123";
        Some "https://example.com/other";
        Some "https://replays.wotinspector.com/en/download/abc123";
        None]
|}.

(** Every character of a string passes a test. *)
Fixpoint string_forallb (test : ascii -> bool) (s : string) : bool :=
  match s with
  | "" => true
  | String c r => test c && string_forallb test r
  end.

(** The character is a hexadecimal digit of either case. *)
Definition is_hex (c : ascii) : bool :=
  match hex_value c with
  | Some _ => true
  | None => false
  end.

(** Unsigned and within the widths of the three segments. *)
Definition in_range (account_id tank_id last_battle_time : Z) : Prop :=
  0 <= account_id < 2 ^ 40 /\ 0 <= tank_id < 2 ^ 24 /\ 0 <= last_battle_time < 2 ^ 32.

(** The 24 digits of an identifier read as one number. *)
Definition id_number (o : ObjectId) : option Z := hex_string_value 0 (ObjectId_str o).

(** *** Upload attempts *)

(** What one upload attempt yields: the record parsed from the body of a
    response with status 200, nothing for any other outcome. *)
Definition attempt `{Ext : External} (r : result response) : option WoTBlitzReplayJSON :=
  match r with
  | Ok resp =>
      if resp_status resp =? 200 then
        match resp_text resp with
        | Ok body => from_str body
        | Raise _ => None
        end
      else None
  | Raise _ => None
  end.

(** The URL, headers and payload of the upload request of [post_replay]. *)
Definition upload_url `{Ext : External} (data : list Z) (account_id : Z)
    (title : string) (priv : bool) : string :=
  Client.URL_REPLAY_UL +:+
  urlencode [("title", VStr title);
             ("private", VInt (if priv then 1 else 0));
             ("uploaded_by", VInt account_id);
             ("details", VStr "full");
             ("key", VStr (md5_hexdigest data))].

Definition upload_headers : list (string * string) :=
  [("Content-type", "application/x-www-form-urlencoded")].

Definition upload_payload `{Ext : External} (filename : string) (data : list Z)
  : string * list Z :=
  (filename, b64encode data).



Definition external_parsing : External := {|
  md5_hexdigest := fun _ => "d41d8cd98f00b204e9800998ecf8427e";
  urlencode := fun _ => "";
  b64encode := fun data => data;
  parse_raw := fun _ => Ok (replay_example win wt_one)
|}.

Definition service_accepting : Service unit := {|
  serve_get := fun _ w => (Raise OtherError, w);
  serve_post := fun _ _ _ w => (Ok (mkResponse 200 (Ok "{}")), w)
|}.

(** * Properties *)

(** ** Region *)

Section RegionFacts.

Import Region_.

(** C9: [matches] is reflexive on every region; [API] matches each of
    [eu], [com], [asia] and [ru] in either position; [API] and [china] do
    not match in either position; two distinct regions other than [API]
    do not match. *)
Theorem matches_spec :
  (forall r, matches r r = true) /\
  (forall r, r ∈ [eu; com; asia; ru] ->
             matches API r = true /\ matches r API = true) /\
  matches API china = false /\
  matches china API = false /\
  (forall a b, a <> b -> a <> API -> b <> API -> matches a b = false).
Proof.
  split; [|split; [|split; [|split]]].
  - intros r. unfold matches. case_decide; congruence.
  - intros r Hr.
    repeat (apply elem_of_cons in Hr as [-> | Hr]); [..|by apply elem_of_nil in Hr];
      split; reflexivity.
  - reflexivity.
  - reflexivity.
  - intros a b Hab Ha Hb. unfold matches.
    repeat case_decide; congruence.
Qed.

Lemma matches_spec_witness :
  matches API asia = true /\ matches asia API = true /\ matches ru eu = false.
Proof.
  destruct matches_spec as (_ & Hapi & _ & _ & Hne).
  destruct (Hapi asia) as [H1 H2].
  - rewrite !elem_of_cons; auto.
  - split; [exact H1 | split; [exact H2 |]].
    apply Hne; discriminate.
Defined.

(** Case analysis on every [<=?] test of the goal. *)
Ltac split_leb :=
  repeat match goal with
         | |- context [?a <=? ?b] => destruct (Z.leb_spec0 a b)
         end.

(** [from_id] on an [int] is the chain of threshold tests. *)
Lemma from_id_int (id : Z) :
  from_id (VInt id) =
  Ok (if 3100000000 <=? id then china
      else if 2000000000 <=? id then asia
      else if 1000000000 <=? id then com
      else if 500000000 <=? id then eu
      else ru).
Proof.
  unfold from_id, py_ge_float; simpl.
  repeat (destruct (_ <=? id); simpl; try reflexivity).
Qed.

(** C5: for a non-negative id, exactly one threshold bucket contains it
    and [from_id] returns the region of that bucket. *)
Theorem from_id_bucket (id : Z) :
  0 <= id ->
  (exists r, bucket r id) /\
  (forall r r', bucket r id -> bucket r' id -> r = r') /\
  (forall r, bucket r id -> from_id (VInt id) = Ok r).
Proof.
  intros _. split; [|split].
  - destruct (Z.le_gt_cases 3100000000 id); [by exists china|].
    destruct (Z.le_gt_cases 2000000000 id); [by exists asia|].
    destruct (Z.le_gt_cases 1000000000 id); [by exists com|].
    destruct (Z.le_gt_cases 500000000 id); [by exists eu|].
    by exists ru.
  - intros r r'; destruct r, r'; simpl; intros; try reflexivity; try lia; tauto.
  - intros r Hr. rewrite from_id_int.
    destruct r; simpl in Hr; try tauto; split_leb; try reflexivity; lia.
Qed.

Lemma from_id_bucket_witness :
  from_id (VInt 1500000000) = Ok com /\ from_id (VInt 0) = Ok ru.
Proof.
  split.
  - apply (from_id_bucket 1500000000); simpl; lia.
  - apply (from_id_bucket 0); simpl; lia.
Defined.

(** Every negative id falls through the threshold tests to [ru]. *)
Lemma from_id_negative (id : Z) : id < 0 -> from_id (VInt id) = Ok ru.
Proof.
  intros Hid. rewrite from_id_int. split_leb; try reflexivity; lia.
Qed.

(** An argument that cannot be compared with a number is a [ValueError]. *)
Lemma from_id_malformed :
  from_id VNone = Raise ValueError /\ forall s, from_id (VStr s) = Raise ValueError.
Proof. split; reflexivity. Qed.

(** C6: the id [-1] is outside the non-negative domain, yet [from_id]
    returns the region [ru] for it and raises nothing. *)
Theorem from_id_minus_one : from_id (VInt (-1)) = Ok ru.
Proof. reflexivity. Qed.

End RegionFacts.

(** ** Perspective queries on a replay *)

Section ReplayFacts.

Import ReplayJSON.

Implicit Types (self : WoTBlitzReplayJSON) (p : option Z) (x k : Z).

Lemma py_in_true x (l : list Z) : py_in x l = true <-> x ∈ l.
Proof. unfold py_in. apply bool_decide_eq_true. Qed.

Lemma py_in_false x (l : list Z) : py_in x l = false <-> x ∉ l.
Proof. unfold py_in. apply bool_decide_eq_false. Qed.

Lemma py_in_existsb x (l : list Z) : py_in x l = existsb (Z.eqb x) l.
Proof.
  apply eq_true_iff_eq. rewrite py_in_true, existsb_exists, list_elem_of_In.
  split.
  - intros Hin. exists x. split; [done | apply Z.eqb_refl].
  - intros (y & Hin & Heq). apply Z.eqb_eq in Heq. by subst.
Qed.

(** [get_battle_result] never raises and computes [resultFor]. *)
Lemma get_battle_result_resultFor self p :
  get_battle_result self p = Ok (resultFor (summary (data self)) p).
Proof.
  unfold get_battle_result, resultFor, get_enemies, get_allies.
  destruct p as [x|]; simpl.
  - rewrite <- !py_in_existsb.
    repeat case_decide; simpl; try reflexivity;
      destruct (py_in x (enemies _)); simpl;
      repeat case_decide; try reflexivity; try congruence;
      destruct (py_in x (allies _)); simpl;
      repeat case_decide; try reflexivity; congruence.
  - repeat case_decide; simpl; try reflexivity; congruence.
Qed.

(** C2: an incomplete raw result is [incomplete] for every perspective;
    otherwise a participant of the enemy roster sees a raw win as a loss,
    a recorded draw as a draw and anything else as a win; no participant
    or one of the ally roster sees a raw win as a win, a recorded draw as
    a draw and anything else as a loss; a participant of neither roster
    gets [incomplete]. *)
Theorem get_battle_result_spec self p :
  let s := summary (data self) in
  (battle_result s = Some incomplete -> get_battle_result self p = Ok incomplete) /\
  (battle_result s <> Some incomplete ->
   (forall x, p = Some x -> x ∈ enemies s ->
              get_battle_result self p = Ok (seen_as s loss win)) /\
   (p = None \/ (exists x, p = Some x /\ (x ∉ enemies s) /\ (x ∈ allies s)) ->
    get_battle_result self p = Ok (seen_as s win loss)) /\
   (forall x, p = Some x -> x ∉ enemies s -> x ∉ allies s ->
              get_battle_result self p = Ok incomplete)).
Proof.
  intros s. rewrite get_battle_result_resultFor. fold s.
  unfold resultFor, seen_as. split.
  - intros ->. by rewrite decide_True.
  - intros Hraw. rewrite (decide_False _ _ Hraw).
    split; [|split].
    + intros x -> Hin. apply py_in_true in Hin.
      rewrite <- py_in_existsb, Hin. reflexivity.
    + intros [-> | (x & -> & Hne & Hin)]; [reflexivity|].
      apply py_in_false in Hne. apply py_in_true in Hin.
      rewrite <- !py_in_existsb, Hne, Hin. reflexivity.
    + intros x -> Hne Hna.
      apply py_in_false in Hne. apply py_in_false in Hna.
      rewrite <- !py_in_existsb, Hne, Hna. reflexivity.
Qed.

Lemma get_battle_result_spec_witness :
  get_battle_result (replay_example not_win wt_one) (Some 21) = Ok win /\
  get_battle_result (replay_example incomplete wt_one) (Some 21) = Ok incomplete /\
  get_battle_result (replay_example not_win wt_draw) None = Ok draw /\
  get_battle_result (replay_example win wt_one) (Some 99) = Ok incomplete.
Proof.
  split; [|split; [|split]].
  - destruct (get_battle_result_spec (replay_example not_win wt_one) (Some 21))
      as [_ H].
    destruct H as (H & _ & _); [discriminate|].
    apply (H 21); [reflexivity|]. simpl. rewrite !elem_of_cons. auto.
  - destruct (get_battle_result_spec (replay_example incomplete wt_one) (Some 21))
      as [H _].
    apply H. reflexivity.
  - destruct (get_battle_result_spec (replay_example not_win wt_draw) None)
      as [_ H].
    destruct H as (_ & H & _); [discriminate|].
    apply H. left. reflexivity.
  - destruct (get_battle_result_spec (replay_example win wt_one) (Some 99))
      as [_ H].
    destruct H as (_ & _ & H); [discriminate|].
    apply (H 99); [reflexivity | |]; simpl;
      rewrite !not_elem_of_cons; repeat split; try discriminate; apply not_elem_of_nil.
Defined.

(** C10: for a participant of neither roster [get_allies] raises
    [ValueError], and so does [get_platoons], whatever the detail rows
    are: no grouping is returned. *)
Theorem get_platoons_unknown_player self x :
  x ∉ allies (summary (data self)) ->
  x ∉ enemies (summary (data self)) ->
  get_allies self (Some x) = Raise ValueError /\
  get_platoons self (Some x) = Raise ValueError.
Proof.
  intros Ha He. apply py_in_false in Ha. apply py_in_false in He.
  assert (get_allies self (Some x) = Raise ValueError) as Hal.
  { unfold get_allies. by rewrite Ha, He. }
  split; [exact Hal|]. unfold get_platoons. by rewrite Hal.
Qed.

Lemma get_platoons_unknown_player_witness :
  get_platoons (replay_example win wt_one) (Some 99) = Raise ValueError.
Proof.
  apply (get_platoons_unknown_player (replay_example win wt_one) 99); simpl;
    rewrite !not_elem_of_cons; repeat split; try discriminate; apply not_elem_of_nil.
Defined.

(** *** The loop of [get_platoons] *)

Lemma members_snoc ally al k rows d :
  members ally al k (rows ++ [d]) =
  members ally al k rows ++
  (if in_platoon k d && Bool.eqb (py_in (dbid d) al) ally then [dbid d] else []).
Proof.
  unfold members. rewrite List.filter_app, List.map_app. simpl.
  by destruct (in_platoon k d && _).
Qed.

Lemma group_snoc (l : list Z) x : group (l ++ [x]) = Some (default [] (group l) ++ [x]).
Proof. by destruct l. Qed.

Lemma lookup_defaultdict_append (g : gmap Z (list Z)) k x j :
  defaultdict_append g k x !! j =
  if decide (k = j) then Some (default [] (g !! k) ++ [x]) else g !! j.
Proof. unfold defaultdict_append. apply lookup_insert. Qed.

Lemma in_platoon_index k d :
  in_platoon k d = true <-> squad_index d = Some k /\ 0 < k.
Proof.
  unfold in_platoon. destruct (squad_index d) as [sq|].
  - rewrite andb_true_iff, Z.eqb_eq, Z.ltb_lt. split.
    + intros [-> Hpos]. by split.
    + intros [[= ->] Hpos]. by split.
  - split; [discriminate | by intros [? _]].
Qed.

(** After the loop over [rows], each grouping maps [k] to the members of
    platoon [k] on its side, in row order, and has no other key. *)
Lemma platoons_fold al rows k :
  (foldl (platoon_step al) (∅, ∅) rows).1 !! k = group (members true al k rows) /\
  (foldl (platoon_step al) (∅, ∅) rows).2 !! k = group (members false al k rows).
Proof.
  induction rows as [|d rows IH] using rev_ind; [done|].
  rewrite foldl_snoc, !members_snoc.
  destruct (foldl (platoon_step al) (∅, ∅) rows) as [ap ep]; simpl in IH.
  destruct IH as [IHa IHe].
  unfold platoon_step, in_platoon.
  destruct (squad_index d) as [sq|]; simpl; [|by rewrite !app_nil_r].
  destruct (Z.ltb_spec 0 sq); simpl;
    [|by rewrite !andb_false_r, !app_nil_r].
  rewrite !andb_true_r.
  destruct (py_in (dbid d) al); simpl;
    rewrite ?andb_true_r, ?andb_false_r, ?app_nil_r, lookup_defaultdict_append;
    (case_decide as Hk;
     [subst k; rewrite Z.eqb_refl, group_snoc; split; congruence
     |rewrite (proj2 (Z.eqb_neq sq k) Hk), app_nil_r; split; congruence]).
Qed.

Lemma elem_of_members ally al k rows x :
  x ∈ members ally al k rows <->
  exists d, d ∈ rows /\ dbid d = x /\ in_platoon k d = true /\ py_in x al = ally.
Proof.
  unfold members. rewrite list_elem_of_In, in_map_iff. split.
  - intros (d & <- & Hd). apply filter_In in Hd as [Hd Hc].
    apply andb_true_iff in Hc as [Hp Hs]. apply Bool.eqb_prop in Hs.
    exists d. by rewrite list_elem_of_In.
  - intros (d & Hd & <- & Hp & Hs). exists d. split; [done|].
    apply filter_In. rewrite <- list_elem_of_In. split; [done|].
    rewrite Hp, Hs. simpl. apply Bool.eqb_reflx.
Qed.

Lemma group_Some (l l' : list Z) : group l = Some l' -> l = l' /\ l <> [].
Proof. destruct l; [done|]. intros [= <-]. done. Qed.

Lemma group_elem (l : list Z) x : x ∈ l -> group l = Some l.
Proof. destruct l; [|done]. by intros ?%elem_of_nil. Qed.

(** [get_platoons] returns whenever the ally roster resolves, and each
    grouping maps a platoon index to its members on that side. *)
Lemma get_platoons_groups self p al :
  get_allies self p = Ok al ->
  exists ap ep,
    get_platoons self p = Ok (ap, ep) /\
    forall k,
      ap !! k = group (members true al k (details (summary (data self)))) /\
      ep !! k = group (members false al k (details (summary (data self)))).
Proof.
  intros Hal. unfold get_platoons. rewrite Hal. simpl.
  destruct (foldl (platoon_step al) (∅, ∅) (details (summary (data self))))
    as [ap ep] eqn:Hfold.
  exists ap, ep. split; [done|]. intros k.
  pose proof (platoons_fold al (details (summary (data self))) k) as Hk.
  by rewrite Hfold in Hk.
Qed.

(** C3, amended: when the ally roster resolves to [al], [get_platoons]
    raises nothing; its two groupings hold exactly the rows with a
    strictly positive platoon index, keyed by that index; a row goes to
    the allied grouping when its participant is in [al] and to the enemy
    grouping otherwise, also when the participant is on neither roster. *)
Theorem get_platoons_spec self p al :
  let rows := details (summary (data self)) in
  get_allies self p = Ok al ->
  exists ap ep,
    get_platoons self p = Ok (ap, ep) /\
    (forall k, ap !! k = group (members true al k rows) /\
               ep !! k = group (members false al k rows)) /\
    (forall k l, ap !! k = Some l \/ ep !! k = Some l -> 0 < k) /\
    (forall d k, d ∈ rows -> squad_index d = Some k -> 0 < k ->
       if py_in (dbid d) al
       then exists l, ap !! k = Some l /\ dbid d ∈ l
       else exists l, ep !! k = Some l /\ dbid d ∈ l).
Proof.
  intros rows Hal.
  destruct (get_platoons_groups self p al Hal) as (ap & ep & Hget & Hgroups).
  fold rows in Hgroups.
  exists ap, ep. split; [done|]. split; [done|]. split.
  - intros k l Hl.
    assert (exists ally x, x ∈ members ally al k rows) as (ally & x & Hx).
    { destruct Hl as [Hl | Hl];
        [rewrite (proj1 (Hgroups k)) in Hl | rewrite (proj2 (Hgroups k)) in Hl];
        apply group_Some in Hl as [<- Hne];
        [exists true | exists false];
        (destruct (members _ al k rows) as [|x m]; [done|]);
        exists x; apply elem_of_cons; by left. }
    apply elem_of_members in Hx as (d & _ & _ & Hp & _).
    by apply in_platoon_index in Hp as [_ ?].
  - intros d k Hd Hsq Hpos.
    assert (in_platoon k d = true) as Hp by (by apply in_platoon_index).
    destruct (py_in (dbid d) al) eqn:Hin.
    + assert (dbid d ∈ members true al k rows) as Hm.
      { apply elem_of_members. by exists d. }
      exists (members true al k rows). split; [|done].
      rewrite (proj1 (Hgroups k)). by eapply group_elem.
    + assert (dbid d ∈ members false al k rows) as Hm.
      { apply elem_of_members. by exists d. }
      exists (members false al k rows). split; [|done].
      rewrite (proj2 (Hgroups k)). by eapply group_elem.
Qed.

Lemma get_platoons_spec_witness :
  exists ap ep,
    get_platoons (replay_example win wt_one) (Some 21) = Ok (ap, ep) /\
    ap !! 2 = Some [21] /\ ep !! 1 = Some [11; 12] /\ ep !! 2 = Some [99].
Proof.
  destruct (get_platoons_spec (replay_example win wt_one) (Some 21) [21; 22])
    as (ap & ep & Hget & Hgroups & _); [reflexivity|].
  exists ap, ep. split; [exact Hget|].
  split; [apply (Hgroups 2) | split; [apply (Hgroups 1) | apply (Hgroups 2)]].
Defined.

(** C3 as stated fails: seen from no participant, the row of participant
    99, who is on neither roster, is listed in platoon 2 of the enemy
    grouping. *)
Lemma unknown_row_is_grouped :
  ~ unknown_rows_skipped (replay_example win wt_one) None.
Proof.
  intros Hskip.
  destruct (get_platoons_groups (replay_example win wt_one) None [11; 12] eq_refl)
    as (ap & ep & Hget & Hgroups).
  destruct (Hskip ap ep Hget (mkDetail 99 (Some 2))) as [_ Hne]; simpl.
  - rewrite !elem_of_cons. auto 10.
  - rewrite !not_elem_of_cons. repeat split; try discriminate. apply not_elem_of_nil.
  - rewrite !not_elem_of_cons. repeat split; try discriminate. apply not_elem_of_nil.
  - apply Hne. exists 2, [21; 99]. split.
    + by rewrite (proj2 (Hgroups 2)).
    + rewrite !elem_of_cons. auto.
Qed.

End ReplayFacts.

(** ** Replay identity *)

Section IdentityFacts.

Import ReplayData.

Implicit Types (s u seg pre : string) (values : gmap string (option string)).

Lemma split_cons sep s : exists h t, split sep s = h :: t.
Proof.
  destruct s as [|c r]; simpl; [by eexists _, _|].
  destruct (Ascii.eqb c sep); [by eexists _, _|].
  destruct (split sep r); by eexists _, _.
Qed.

Lemma split_no_slash s : no_slash s = true -> split "/" s = [s].
Proof.
  induction s as [|c r IH]; simpl; [done|].
  intros [Hc Hr]%andb_true_iff. apply negb_true_iff in Hc.
  by rewrite Hc, (IH Hr).
Qed.

Lemma split_app_slash pre seg :
  split "/" (pre +:+ String "/" seg) = split "/" pre ++ split "/" seg.
Proof.
  induction pre as [|c r IH]; simpl; [done|].
  rewrite IH. destruct (Ascii.eqb c "/"); [done|].
  by destruct (split_cons "/" r) as (h & t & ->).
Qed.

(** The last element of [url.split('/')] is the trailing segment. *)
Lemma last_split_trailing u seg :
  trailing_segment u seg -> index0 (slice_last (split "/" u)) = Ok seg.
Proof.
  intros [Hseg [-> | [pre ->]]]; unfold slice_last.
  - by rewrite (split_no_slash _ Hseg).
  - by rewrite split_app_slash, (split_no_slash _ Hseg), last_snoc.
Qed.

(** Every string has a trailing segment, and only one. *)
Lemma trailing_segment_exists u : exists seg, trailing_segment u seg.
Proof.
  induction u as [|c r (seg & Hseg & Hr)].
  - exists "". split; [done | by left].
  - destruct (Ascii.eqb c "/") eqn:Hc.
    + apply Ascii.eqb_eq in Hc as ->. exists seg. split; [done|]. right.
      destruct Hr as [-> | [pre ->]]; [by exists "" | by exists (String "/" pre)].
    + destruct Hr as [-> | [pre ->]].
      * exists (String c seg). split; [|by left]. simpl. by rewrite Hc.
      * exists seg. split; [done|]. right. by exists (String c pre).
Qed.

Lemma trailing_segment_unique u seg seg' :
  trailing_segment u seg -> trailing_segment u seg' -> seg = seg'.
Proof.
  intros H1%last_split_trailing H2%last_split_trailing. congruence.
Qed.

Lemma store_id_resolved values i :
  resolves_to values
    (<["download_url" := Some (_DLurlBase +:+ i)]>
       (<["view_url" := Some (_ViewUrlBase +:+ i)]> (<["id" := Some i]> values))) i.
Proof.
  split; [split; [|split]|].
  - by simplify_map_eq.
  - by simplify_map_eq.
  - by simplify_map_eq.
  - intros k ? ? ?. by simplify_map_eq.
Qed.

(** C7: on validated fields, an explicit id is used; without one the id
    is the trailing segment of [view_url], and without that of
    [download_url]; the resolved id is stored and both URLs are rebuilt
    from the templates and that id; with none of the three the
    validator returns the fields as they are, the id unset. *)
Theorem store_id_spec values (vid vu du : option string) :
  values !! "id" = Some vid ->
  values !! "view_url" = Some vu ->
  values !! "download_url" = Some du ->
  (forall i, vid = Some i ->
     exists v', store_id values = Ok v' /\ resolves_to values v' i) /\
  (forall u seg, vid = None -> vu = Some u -> trailing_segment u seg ->
     exists v', store_id values = Ok v' /\ resolves_to values v' seg) /\
  (forall u seg, vid = None -> vu = None -> du = Some u -> trailing_segment u seg ->
     exists v', store_id values = Ok v' /\ resolves_to values v' seg) /\
  (vid = None -> vu = None -> du = None ->
     store_id values = Ok values /\ values !! "id" = Some None).
Proof.
  intros Hid Hvu Hdu. unfold store_id, dict_get.
  split; [|split; [|split]].
  - intros i ->. rewrite Hid. simpl. eexists. split; [done|]. apply store_id_resolved.
  - intros u seg -> -> Hseg. rewrite Hid; simpl. rewrite Hvu; simpl.
    rewrite (last_split_trailing _ _ Hseg). simpl.
    eexists. split; [done|]. apply store_id_resolved.
  - intros u seg -> -> -> Hseg. rewrite Hid; simpl. rewrite Hvu; simpl.
    rewrite Hdu; simpl. rewrite (last_split_trailing _ _ Hseg). simpl.
    eexists. split; [done|]. apply store_id_resolved.
  - intros -> -> ->. rewrite Hid; simpl. rewrite Hvu; simpl. rewrite Hdu; simpl.
    done.
Qed.

Lemma store_id_spec_witness :
  exists v',
    store_id (<["id" := None]> (<["view_url" := Some "https://replays.wotinspector.com/en/view/abc123"]>
                (<["download_url" := None]> ∅))) = Ok v' /\
    v' !! "id" = Some (Some "abc123") /\
    v' !! "download_url" = Some (Some "https://replays.wotinspector.com/en/download/abc123").
Proof.
  destruct (store_id_spec
              (<["id" := None]> (<["view_url" := Some "https://replays.wotinspector.com/en/view/abc123"]>
                 (<["download_url" := None]> ∅)))
              None (Some "https://replays.wotinspector.com/en/view/abc123") None)
    as (_ & H & _); [reflexivity | reflexivity | reflexivity |].
  destruct (H "https://replays.wotinspector.com/en/view/abc123" "abc123")
    as (v' & Hv' & (Hi & _ & Hd) & _); [reflexivity | reflexivity | |].
  - split; [reflexivity|]. right.
    exists "https://replays.wotinspector.com/en/view". reflexivity.
  - exists v'. split; [exact Hv' | split; [exact Hi | exact Hd]].
Defined.

(** A missing field (one that failed validation) makes the validator
    raise [ValueError]. *)
Lemma store_id_missing_field values :
  values !! "id" = None -> store_id values = Raise ValueError.
Proof. intros H. unfold store_id, dict_get. by rewrite H. Qed.

End IdentityFacts.

(** ** Upload de-duplication *)

Section ClientFacts.

Import Client.

Context `{Ext : External} {W : Type} `{Svc : Service W}.

(** The run of [post_replay] starts with the lookup of the digest. *)
Lemma run_post_replay self data filename account_id title priv (w : W) :
  run (post_replay self data filename account_id title priv) w =
  let url := get_url_replay_JSON (md5_hexdigest data) in
  let '(r, w1) := serve_get url w in
  let '(a, w2, tr) :=
    run (match (match r with Ok replay => replay | Raise _ => None end) with
         | Some found => Ret (mkClient (REPLAY_N self + 1), Some found)
         | None =>
             replay ← post_loop MAX_RETRIES
               (URL_REPLAY_UL +:+
                urlencode [("title", VStr title);
                           ("private", VInt (if priv then 1 else 0));
                           ("uploaded_by", VInt account_id);
                           ("details", VStr "full");
                           ("key", VStr (md5_hexdigest data))])
               [("Content-type", "application/x-www-form-urlencoded")]
               (filename, b64encode data);
             Ret (mkClient (REPLAY_N self + 1), replay)
         end) w1 in
  (a, w2, EvGet url :: tr).
Proof. reflexivity. Qed.

(** C8: when the lookup of the digest of the payload answers with a
    record, [post_replay] returns that record, its only request is that
    lookup and it issues no upload; so a run with an upload request is
    one whose lookup gave no record. *)
Theorem post_replay_existing self data filename account_id title priv (w : W) :
  let url := get_url_replay_JSON (md5_hexdigest data) in
  let out := run (post_replay self data filename account_id title priv) w in
  (forall r w1, serve_get url w = (Ok (Some r), w1) ->
     out.1.1.2 = Some r /\ out.1.2 = w1 /\ out.2 = [EvGet url] /\ uploads out.2 = 0%nat) /\
  (uploads out.2 <> 0%nat -> forall r, (serve_get url w).1 <> Ok (Some r)).
Proof.
  intros url out. split.
  - intros r w1 Hget. subst out url. rewrite run_post_replay. cbv zeta.
    rewrite Hget. simpl. done.
  - intros Hup r Hget. apply Hup. subst out url. rewrite run_post_replay. cbv zeta.
    destruct (serve_get _ w) as [res w1]. simpl in Hget. subst res. done.
Qed.

End ClientFacts.

Lemma post_replay_existing_witness :
  let out := run (Svc := service_example)
               (Client.post_replay (Ext := external_example) (mkClient 1) [1; 2; 3]
                  "Replay" 0 "Replay" false) tt in
  out.1.1.2 = Some (replay_example win wt_one) /\ uploads out.2 = 0%nat.
Proof.
  destruct (post_replay_existing (Ext := external_example) (Svc := service_example)
              (mkClient 1) [1; 2; 3] "Replay" 0 "Replay" false tt) as [Hfound _].
  destruct (Hfound (replay_example win wt_one) tt) as (Hr & _ & _ & Hu);
    [reflexivity|].
  split; [exact Hr | exact Hu].
Defined.

(** ** The tank-statistics identifier *)

Section TankStatFacts.

Implicit Types (s r : string) (c : ascii) (w : nat) (n d : Z)
  (values : gmap string pyval).

Lemma length_app s r : String.length (s +:+ r) = (String.length s + String.length r)%nat.
Proof. induction s as [|c s IH]; simpl; [done | by rewrite IH]. Qed.

Lemma app_assoc s1 s2 s3 : (s1 +:+ s2) +:+ s3 = s1 +:+ (s2 +:+ s3).
Proof.
  induction s1 as [|c s1 IH]; [done|].
  change (String c ((s1 +:+ s2) +:+ s3) = String c (s1 +:+ (s2 +:+ s3))).
  by rewrite IH.
Qed.

Lemma substring_app_l s r : substring 0 (String.length s) (s +:+ r) = s.
Proof.
  induction s as [|c s IH]; simpl; [by destruct r | by rewrite IH].
Qed.

Lemma substring_app_r s r i m :
  substring (String.length s + i) m (s +:+ r) = substring i m r.
Proof. induction s as [|c s IH]; simpl; [done | by rewrite IH]. Qed.

Lemma substring_all s : substring 0 (String.length s) s = s.
Proof. induction s as [|c s IH]; simpl; [done | by rewrite IH]. Qed.

Lemma length_zeros k : String.length (zeros k) = k.
Proof. induction k; simpl; [done | by f_equal]. Qed.

Lemma hex_value_range c d : hex_value c = Some d -> 0 <= d < 16.
Proof.
  unfold hex_value. generalize (Z.of_N (N_of_ascii c)). intros code.
  repeat match goal with
         | |- context [?a <=? ?b] => destruct (Z.leb_spec0 a b); simpl
         end;
    intros [= <-]; lia.
Qed.

Lemma digit_cases d : 0 <= d < 16 ->
  d = 0 \/ d = 1 \/ d = 2 \/ d = 3 \/ d = 4 \/ d = 5 \/ d = 6 \/ d = 7 \/
  d = 8 \/ d = 9 \/ d = 10 \/ d = 11 \/ d = 12 \/ d = 13 \/ d = 14 \/ d = 15.
Proof. lia. Qed.

Ltac each_digit d H :=
  apply digit_cases in H;
  repeat (destruct H as [H | H]; [subst d|]); [..|subst d].

Lemma hex_value_digit d : 0 <= d < 16 -> hex_value (hex_digit d) = Some d.
Proof. intros H. each_digit d H; reflexivity. Qed.

Lemma hex_digit_plain d : 0 <= d < 16 ->
  Ascii.is_space (hex_digit d) = false /\
  (Ascii.eqb (hex_digit d) "+" || Ascii.eqb (hex_digit d) "-")%bool = false.
Proof. intros H. each_digit d H; split; reflexivity. Qed.

Lemma all_hex_app s r : all_hex (s +:+ r) = all_hex s && all_hex r.
Proof.
  induction s as [|c s IH]; simpl; [done|].
  destruct (hex_value c); [|done]. by rewrite IH, andb_assoc.
Qed.


Lemma pow16_pos w : 0 < 16 ^ Z.of_nat w.
Proof. apply Z.pow_pos_nonneg; lia. Qed.

Lemma pow16_succ w : 16 ^ Z.of_nat (S w) = 16 * 16 ^ Z.of_nat w.
Proof. rewrite Nat2Z.inj_succ, Z.pow_succ_r; lia. Qed.

Lemma pow16_le w w' : (w <= w')%nat -> 16 ^ Z.of_nat w <= 16 ^ Z.of_nat w'.
Proof. intros. apply Z.pow_le_mono_r; lia. Qed.

Lemma pow16_pow2 w : 16 ^ Z.of_nat w = 2 ^ (4 * Z.of_nat w).
Proof. rewrite Z.pow_mul_r by lia. reflexivity. Qed.

Lemma length_hex_fixed w n : String.length (hex_fixed w n) = w.
Proof. induction w as [|w IH]; simpl; [done | by rewrite IH]. Qed.

Lemma all_hex_hex_fixed w n : all_hex (hex_fixed w n) = true.
Proof.
  induction w as [|w IH]; simpl; [done|].
  assert (0 <= (n / 16 ^ Z.of_nat w) mod 16 < 16) as Hd by (apply Z.mod_pos_bound; lia).
  rewrite (hex_value_digit _ Hd), IH, andb_true_r. apply Ascii.eqb_refl.
Qed.

(** The digits of [hex_fixed w n] read back as [n] modulo [16 ^ w]. *)
Lemma hex_string_value_fixed w n acc :
  hex_string_value acc (hex_fixed w n) = Some (acc * 16 ^ Z.of_nat w + n mod 16 ^ Z.of_nat w).
Proof.
  revert acc. induction w as [|w IH]; intros acc.
  - simpl. f_equal. rewrite Z.mod_1_r. lia.
  - cbn [hex_fixed hex_string_value].
    assert (0 <= (n / 16 ^ Z.of_nat w) mod 16 < 16) as Hd by (apply Z.mod_pos_bound; lia).
    rewrite (hex_value_digit _ Hd), IH. f_equal.
    rewrite pow16_succ, (Z.mul_comm 16 (16 ^ Z.of_nat w)).
    pose proof (pow16_pos w).
    rewrite (Z.rem_mul_r n (16 ^ Z.of_nat w) 16) by lia. lia.
Qed.

(** Leading zeros: more digits than [n] needs are zeros in front. *)
Lemma hex_fixed_extend w w' n :
  (w <= w')%nat -> 0 <= n < 16 ^ Z.of_nat w ->
  hex_fixed w' n = zeros (w' - w) +:+ hex_fixed w n.
Proof.
  intros Hle Hn. induction w' as [|w' IH].
  - assert (w = 0%nat) as -> by lia. done.
  - destruct (decide (w = S w')) as [-> | Hne].
    + by rewrite Nat.sub_diag.
    + assert (w <= w')%nat as Hle' by lia.
      replace (S w' - w)%nat with (S (w' - w)) by lia.
      cbn [hex_fixed zeros String.append]. rewrite (IH Hle').
      pose proof (pow16_le _ _ Hle').
      rewrite (Z.div_small n (16 ^ Z.of_nat w')) by lia. done.
Qed.

(** *** The number of digits of [hex] *)

Lemma hex_len_bound n : 0 <= n -> n < 16 ^ Z.of_nat (hex_len n).
Proof.
  intros Hn. unfold hex_len. rewrite pow16_pow2.
  destruct (decide (n = 0)) as [-> | Hne]; [done|].
  apply Z.log2_lt_pow2; [lia|].
  pose proof (Z.log2_nonneg n).
  rewrite Nat2Z.inj_succ, Z2Nat.id by (apply Z.div_pos; lia).
  pose proof (Z.mod_pos_bound (Z.log2 n) 4 ltac:(lia)).
  pose proof (Z.div_mod (Z.log2 n) 4 ltac:(lia)). lia.
Qed.

Lemma hex_len_le n w : 0 <= n < 16 ^ Z.of_nat w -> (1 <= w)%nat -> (hex_len n <= w)%nat.
Proof.
  intros [Hn Hlt] Hw. unfold hex_len.
  destruct (decide (n = 0)) as [-> | Hne]; [exact Hw|].
  rewrite pow16_pow2 in Hlt. apply Z.log2_lt_pow2 in Hlt; [|lia].
  pose proof (Z.log2_nonneg n).
  assert (Z.log2 n / 4 < Z.of_nat w) by (apply Z.div_lt_upper_bound; lia).
  assert (0 <= Z.log2 n / 4) by (apply Z.div_pos; lia). lia.
Qed.

Lemma hex_len_gt n w : 16 ^ Z.of_nat w <= n -> (w < hex_len n)%nat.
Proof.
  intros Hge. unfold hex_len. pose proof (pow16_pos w).
  rewrite pow16_pow2 in Hge. apply Z.log2_le_pow2 in Hge; [|lia].
  assert (Z.of_nat w <= Z.log2 n / 4) by (apply Z.div_le_lower_bound; lia). lia.
Qed.

(** *** The digits that [hex] prints *)

Lemma app_nil_r_str s : s +:+ "" = s.
Proof.
  induction s as [|c s IH]; [done|].
  change (String c (s +:+ "") = String c s). by rewrite IH.
Qed.

Lemma hex_fixed_snoc k m d :
  0 <= m -> 0 <= d < 16 ->
  hex_fixed (S k) (16 * m + d) = hex_fixed k m +:+ String (hex_digit d) "".
Proof.
  intros Hm Hd. induction k as [|k IH].
  - cbn [hex_fixed]. change (16 ^ Z.of_nat 0) with 1. rewrite Z.div_1_r.
    replace ((16 * m + d) mod 16) with d by (Z.div_mod_to_equations; lia). done.
  - cbn [hex_fixed] in *. rewrite IH.
    change (String ?c ?s +:+ ?r) with (String c (s +:+ r)). f_equal. f_equal. f_equal.
    rewrite pow16_succ. pose proof (pow16_pos k).
    rewrite <- Z.div_div by lia. f_equal. Z.div_mod_to_equations; lia.
Qed.

Lemma hex_len_snoc m d : 0 < m -> 0 <= d < 16 -> hex_len (16 * m + d) = S (hex_len m).
Proof.
  intros Hm Hd. unfold hex_len.
  assert (Z.log2 (16 * m + d) = Z.log2 m + 4) as ->.
  { destruct (Z.log2_spec m Hm) as [Hlo Hhi]. pose proof (Z.log2_nonneg m).
    apply Z.log2_unique; [lia|].
    rewrite Z.pow_succ_r in Hhi by lia.
    rewrite Z.pow_succ_r, Z.pow_add_r by lia. change (2 ^ 4) with 16. lia. }
  pose proof (Z.log2_nonneg m).
  replace (Z.log2 m + 4) with (1 * 4 + Z.log2 m) by lia.
  rewrite Z.div_add_l by lia. rewrite Z2Nat.inj_add by (try apply Z.div_pos; lia). done.
Qed.

Lemma of_pos_hex_fixed (fuel : nat) (p : positive) (rest : string) :
  (Pos.size_nat p <= fuel)%nat ->
  HexString.Raw.of_pos p rest = hex_fixed (hex_len (Zpos p)) (Zpos p) +:+ rest.
Proof.
  revert p rest. induction fuel as [|fuel IH]; intros p rest Hsize.
  - destruct p; simpl in Hsize; lia.
  - do 4 (try destruct p as [p|p|]); try reflexivity;
      cbn [HexString.Raw.of_pos];
      (rewrite (IH p) by (simpl in Hsize; lia));
      match goal with
      | |- _ = hex_fixed (hex_len (Zpos (?b0 (?b1 (?b2 (?b3 p)))))) _ +:+ _ =>
          let d := eval vm_compute in (Zpos (b0 (b1 (b2 (b3 1%positive)))) - 16) in
          replace (Zpos (b0 (b1 (b2 (b3 p))))) with (16 * Zpos p + d) by reflexivity;
          rewrite (hex_len_snoc (Zpos p) d), (hex_fixed_snoc _ (Zpos p) d), app_assoc
            by lia
      end; reflexivity.
Qed.

(** The digits of [hex]: the sign, [0x], and the [hex_len] digits of the
    absolute value. *)
Lemma hex_digits n :
  hex n =
  if n <? 0 then "-0x" +:+ hex_fixed (hex_len (- n)) (- n)
  else "0x" +:+ hex_fixed (hex_len n) n.
Proof.
  destruct n as [|p|p]; [reflexivity | |].
  - unfold hex, HexString.of_Z, HexString.of_pos.
    rewrite (of_pos_hex_fixed (Pos.size_nat p) p "") by done.
    by rewrite app_nil_r_str.
  - unfold hex, HexString.of_Z, HexString.of_pos.
    rewrite (of_pos_hex_fixed (Pos.size_nat p) p "") by done.
    by rewrite app_nil_r_str.
Qed.

(** *** [hex(n)[2:].zfill(w)] *)

Lemma str_drop_hex n : 0 <= n -> str_drop 2 (hex n) = hex_fixed (hex_len n) n.
Proof.
  intros Hn. by rewrite hex_digits, (proj2 (Z.ltb_ge n 0) Hn).
Qed.

Lemma zfill_digits w k n :
  zfill w (hex_fixed (S k) n) = zeros (w - S k) +:+ hex_fixed (S k) n.
Proof.
  unfold zfill. rewrite length_hex_fixed. cbn [hex_fixed].
  assert (0 <= (n / 16 ^ Z.of_nat k) mod 16 < 16) as Hd by (apply Z.mod_pos_bound; lia).
  by rewrite (proj2 (hex_digit_plain _ Hd)).
Qed.

Lemma zfill_hex w n :
  0 <= n ->
  zfill w (str_drop 2 (hex n)) = zeros (w - hex_len n) +:+ hex_fixed (hex_len n) n.
Proof. intros Hn. rewrite (str_drop_hex _ Hn). apply zfill_digits. Qed.

Lemma length_zfill_hex w n :
  0 <= n ->
  String.length (zfill w (str_drop 2 (hex n))) = (w - hex_len n + hex_len n)%nat.
Proof.
  intros Hn. by rewrite (zfill_hex _ _ Hn), length_app, length_zeros, length_hex_fixed.
Qed.

(** Within the width, the padded digits are the [w] digits of [n]. *)
Lemma zfill_hex_fit w n :
  (1 <= w)%nat -> 0 <= n < 16 ^ Z.of_nat w ->
  zfill w (str_drop 2 (hex n)) = hex_fixed w n.
Proof.
  intros Hw [Hn Hlt]. rewrite (zfill_hex _ _ Hn).
  symmetry. apply hex_fixed_extend.
  - by apply hex_len_le.
  - split; [done | by apply hex_len_bound].
Qed.

(** *** [ObjectId] of a string of digits *)

Lemma bytes_fromhex_hexlify k s :
  String.length s = (2 * k)%nat -> all_hex s = true ->
  exists bs, bytes_fromhex s = Some bs /\ hexlify bs = s.
Proof.
  revert s. induction k as [|k IH]; intros s Hlen Hall.
  - destruct s; [by exists [] | done].
  - destruct s as [|c1 [|c2 r]]; [done | simpl in Hlen; lia |].
    cbn [all_hex] in Hall.
    destruct (hex_value c1) as [d1|] eqn:H1; [|done].
    apply andb_true_iff in Hall as [E1 Hall]. apply Ascii.eqb_eq in E1.
    destruct (hex_value c2) as [d2|] eqn:H2; [|done].
    apply andb_true_iff in Hall as [E2 Hall]. apply Ascii.eqb_eq in E2.
    destruct (IH r) as (bs & Hbs & Hr); [simpl in Hlen; lia | done |].
    pose proof (hex_value_range _ _ H1) as R1.
    pose proof (hex_value_range _ _ H2) as R2.
    exists ((16 * d1 + d2) :: bs). cbn [bytes_fromhex hexlify].
    rewrite <- E1 at 1. rewrite (proj1 (hex_digit_plain d1 R1)), H1, H2, Hbs.
    split; [done|].
    replace ((16 * d1 + d2) / 16) with d1
      by (clear -R1 R2; Z.div_mod_to_equations; lia).
    replace ((16 * d1 + d2) mod 16) with d2
      by (clear -R1 R2; Z.div_mod_to_equations; lia).
    by rewrite E1, E2, Hr.
Qed.

Lemma ObjectId_of_digits s :
  String.length s = 24%nat -> all_hex s = true ->
  exists oid, ObjectId_of_str s = Ok oid /\ ObjectId_str oid = s.
Proof.
  intros Hlen Hall. unfold ObjectId_of_str. rewrite Hlen. simpl.
  destruct (bytes_fromhex_hexlify 12 s) as (bs & -> & Hs); [done..|].
  by exists (mkObjectId bs).
Qed.

Lemma ObjectId_of_long s :
  String.length s <> 24%nat -> ObjectId_of_str s = Raise InvalidId.
Proof.
  intros Hlen. unfold ObjectId_of_str.
  by rewrite (proj2 (Nat.eqb_neq _ _) Hlen).
Qed.

(** *** [mk_id] *)

Lemma padded_hex_fixed w n : 0 <= n < 16 ^ Z.of_nat w -> padded w n (hex_fixed w n).
Proof.
  intros Hn. split; [apply length_hex_fixed|]. split; [apply all_hex_hex_fixed|].
  rewrite hex_string_value_fixed, Z.mod_small by done. done.
Qed.

Lemma substring_mid s1 s2 s3 :
  substring (String.length s1) (String.length s2) (s1 +:+ s2 +:+ s3) = s2.
Proof.
  rewrite <- (Nat.add_0_r (String.length s1)), substring_app_r. apply substring_app_l.
Qed.

Lemma substring_end s1 s2 s3 :
  substring (String.length s1 + String.length s2) (String.length s3)
    (s1 +:+ s2 +:+ s3) = s3.
Proof.
  rewrite substring_app_r, <- (Nat.add_0_r (String.length s2)), substring_app_r.
  apply substring_all.
Qed.

(** Three padded segments of 10, 6 and 8 digits split back into their
    values. *)
Lemma split_id_segments sa st sl a t l :
  padded 10 a sa -> padded 6 t st -> padded 8 l sl ->
  split_id (sa +:+ st +:+ sl) = Some (a, t, l).
Proof.
  intros (La & _ & Va) (Lt & _ & Vt) (Ll & _ & Vl). unfold split_id.
  replace (substring 0 10 (sa +:+ st +:+ sl)) with sa
    by (rewrite <- La; symmetry; apply substring_app_l).
  replace (substring 10 6 (sa +:+ st +:+ sl)) with st
    by (rewrite <- La, <- Lt; symmetry; apply substring_mid).
  replace (substring 16 8 (sa +:+ st +:+ sl)) with sl
    by (change 16%nat with (10 + 6)%nat; rewrite <- La, <- Ll, <- Lt;
        symmetry; apply substring_end).
  by rewrite Va, Vt, Vl.
Qed.

(** C1: for unsigned components within 40, 24 and 32 bits, [mk_id]
    returns the identifier whose 24 digits are the account id padded to
    10 hexadecimal digits, the tank id to 6 and the last battle time to
    8, and the three segments split back into the components; when a
    component exceeds its width [mk_id] raises [InvalidId]. *)
Theorem mk_id_spec (account_id tank_id last_battle_time : Z) :
  0 <= account_id -> 0 <= tank_id -> 0 <= last_battle_time ->
  (account_id < 2 ^ 40 -> tank_id < 2 ^ 24 -> last_battle_time < 2 ^ 32 ->
   exists oid sa st sl,
     WGtankStat.mk_id (VInt account_id) (VInt last_battle_time) (VInt tank_id) = Ok oid /\
     ObjectId_str oid = sa +:+ st +:+ sl /\
     padded 10 account_id sa /\ padded 6 tank_id st /\ padded 8 last_battle_time sl /\
     split_id (ObjectId_str oid) = Some (account_id, tank_id, last_battle_time)) /\
  (2 ^ 40 <= account_id \/ 2 ^ 24 <= tank_id \/ 2 ^ 32 <= last_battle_time ->
   WGtankStat.mk_id (VInt account_id) (VInt last_battle_time) (VInt tank_id) =
   Raise InvalidId).
Proof.
  intros Ha Ht Hl.
  assert (16 ^ Z.of_nat 10 = 2 ^ 40) as E10 by reflexivity.
  assert (16 ^ Z.of_nat 6 = 2 ^ 24) as E6 by reflexivity.
  assert (16 ^ Z.of_nat 8 = 2 ^ 32) as E8 by reflexivity.
  unfold WGtankStat.mk_id, py_hex. cbn [mbind result_bind]. rewrite app_assoc. split.
  - intros Ba Bt Bl.
    rewrite !zfill_hex_fit by lia.
    assert (padded 10 account_id (hex_fixed 10 account_id)) as Pa
      by (apply padded_hex_fixed; lia).
    assert (padded 6 tank_id (hex_fixed 6 tank_id)) as Pt
      by (apply padded_hex_fixed; lia).
    assert (padded 8 last_battle_time (hex_fixed 8 last_battle_time)) as Pl
      by (apply padded_hex_fixed; lia).
    destruct (ObjectId_of_digits
                (hex_fixed 10 account_id +:+ hex_fixed 6 tank_id +:+
                 hex_fixed 8 last_battle_time)) as (oid & Hoid & Hstr).
    { by rewrite !length_app, !length_hex_fixed. }
    { by rewrite !all_hex_app, !all_hex_hex_fixed. }
    exists oid, (hex_fixed 10 account_id), (hex_fixed 6 tank_id),
      (hex_fixed 8 last_battle_time).
    rewrite Hstr. repeat split; try done; try apply Pa; try apply Pt; try apply Pl.
    by apply split_id_segments.
  - intros Hover. apply ObjectId_of_long.
    rewrite !length_app, !length_zfill_hex by done.
    assert (10 < hex_len account_id \/ 6 < hex_len tank_id \/
            8 < hex_len last_battle_time)%nat as Hlen.
    { destruct Hover as [H | [H | H]];
        [left | right; left | right; right]; apply hex_len_gt; lia. }
    lia.
Qed.

Lemma mk_id_spec_witness :
  (exists oid,
     WGtankStat.mk_id (VInt 1) (VInt 3) (VInt 2) = Ok oid /\
     split_id (ObjectId_str oid) = Some (1, 2, 3)) /\
  WGtankStat.mk_id (VInt (2 ^ 40)) (VInt 3) (VInt 2) = Raise InvalidId.
Proof.
  split.
  - destruct (mk_id_spec 1 2 3) as [Hfit _]; [lia | lia | lia |].
    destruct Hfit as (oid & sa & st & sl & Hmk & _ & _ & _ & _ & Hsplit);
      [reflexivity | reflexivity | reflexivity |].
    exists oid. split; [exact Hmk | exact Hsplit].
  - destruct (mk_id_spec (2 ^ 40) 2 3) as [_ Hover]; [lia | lia | lia |].
    apply Hover. left. lia.
Defined.

(** The identifier of the triple (1, 2, 3), and of the widest values. *)
Example mk_id_1_2_3 :
  exists oid,
    WGtankStat.mk_id (VInt 1) (VInt 3) (VInt 2) = Ok oid /\
    ObjectId_str oid = "0000000001" +:+ "000002" +:+ "00000003".
Proof. eexists. split; reflexivity. Qed.

Example mk_id_widest :
  exists oid,
    WGtankStat.mk_id (VInt (2 ^ 40 - 1)) (VInt (2 ^ 32 - 1)) (VInt (2 ^ 24 - 1)) = Ok oid /\
    ObjectId_str oid = "ffffffffffffffffffffffff".
Proof. eexists. split; vm_compute; reflexivity. Qed.

(** [hex] on small inputs, as the builtin prints them. *)
Example hex_examples :
  hex 0 = "0x0" /\ hex 255 = "0xff" /\ hex 4096 = "0x1000" /\ hex (-1) = "-0x1" /\
  hex 1099511627775 = "0xffffffffff" /\ hex 1099511627776 = "0x10000000000".
Proof. repeat split; vm_compute; reflexivity. Qed.

(** A negative component gives no identifier either: the [x] left over
    from the prefix is no digit. *)
Example mk_id_negative :
  WGtankStat.mk_id (VInt (-1)) (VInt 3) (VInt 2) = Raise InvalidId.
Proof. vm_compute. reflexivity. Qed.



(** *** [set_id] *)

Lemma bind_Ok {A B} (m : result A) (f : A -> result B) b :
  m ≫= f = Ok b -> exists a, m = Ok a /\ f a = Ok b.
Proof. destruct m as [a|]; [|done]. intros Hf. by exists a. Qed.

Lemma dict_get_Ok {V} (dict : gmap string V) k v :
  dict_get dict k = Ok v -> dict !! k = Some v.
Proof. unfold dict_get. destruct (dict !! k); [|done]. by intros [= ->]. Qed.

(** The region stage of [set_id] leaves the identifier alone. *)
Lemma region_stage_id values values' :
  match values !! "_region" with
  | None | Some VNone =>
      a ← dict_get values "account_id";
      r ← Region_.from_id a;
      Ok (<["_region" := VRegion r]> values)
  | Some _ => Ok values
  end = Ok values' ->
  values' !! "id" = values !! "id".
Proof.
  assert (forall m : result (gmap string pyval),
            m = (a ← dict_get values "account_id";
                 r ← Region_.from_id a;
                 Ok (<["_region" := VRegion r]> values)) ->
            m = Ok values' -> values' !! "id" = values !! "id") as Hins.
  { intros m -> Hm. destruct (dict_get values "account_id") as [a|]; [|done].
    simpl in Hm. destruct (Region_.from_id a) as [r|]; [|done].
    simpl in Hm. injection Hm as <-. by rewrite lookup_insert_ne. }
  destruct (values !! "_region") as [[]|]; intros Hm;
    try (by injection Hm as <-); by eapply Hins.
Qed.

(** The identifier after [set_id]: derived when none is supplied, kept
    otherwise. *)
Lemma set_id_id values values' :
  WGtankStat.set_id values = Ok values' ->
  (values !! "id" = Some VNone ->
   exists a l t oid,
     values !! "account_id" = Some a /\
     values !! "last_battle_time" = Some l /\
     values !! "tank_id" = Some t /\
     WGtankStat.mk_id a l t = Ok oid /\
     values' !! "id" = Some (VObjectId oid)) /\
  (forall v, values !! "id" = Some v -> v <> VNone -> values' !! "id" = Some v).
Proof.
  unfold WGtankStat.set_id, try_except. intros Hset.
  destruct (_ ≫= _) as [res|] eqn:Hbody in Hset; [|done].
  injection Hset as ->.
  apply bind_Ok in Hbody as (vid & Hvid%dict_get_Ok & Hbody).
  apply bind_Ok in Hbody as (values1 & Hv1 & Hreg%region_stage_id).
  split.
  - intros Hnone. rewrite Hvid in Hnone. injection Hnone as ->.
    rewrite decide_True in Hv1 by done.
    apply bind_Ok in Hv1 as (a & Ha%dict_get_Ok & Hv1).
    apply bind_Ok in Hv1 as (l & Hl%dict_get_Ok & Hv1).
    apply bind_Ok in Hv1 as (t & Ht%dict_get_Ok & Hv1).
    apply bind_Ok in Hv1 as (oid & Hmk & Hv1).
    injection Hv1 as <-.
    exists a, l, t, oid. by rewrite Hreg, lookup_insert_eq.
  - intros v Hv Hne. rewrite Hvid in Hv. injection Hv as ->.
    rewrite decide_False in Hv1 by done. injection Hv1 as <-.
    by rewrite Hreg.
Qed.

(** C4, amended: in a constructed record whose payload supplies no
    identifier, the identifier is [mk_id] of the record's own account
    id, last battle time and tank id, so two such records with the same
    triple carry the same identifier; an identifier that the payload
    supplies is kept as it is. *)
Theorem set_id_spec values values' :
  WGtankStat.set_id values = Ok values' ->
  (values !! "id" = Some VNone ->
   exists a l t oid,
     values !! "account_id" = Some a /\
     values !! "last_battle_time" = Some l /\
     values !! "tank_id" = Some t /\
     WGtankStat.mk_id a l t = Ok oid /\
     values' !! "id" = Some (VObjectId oid)) /\
  (forall other other' : gmap string pyval,
     WGtankStat.set_id other = Ok other' ->
     values !! "id" = Some VNone -> other !! "id" = Some VNone ->
     values !! "account_id" = other !! "account_id" ->
     values !! "last_battle_time" = other !! "last_battle_time" ->
     values !! "tank_id" = other !! "tank_id" ->
     values' !! "id" = other' !! "id") /\
  (forall v, values !! "id" = Some v -> v <> VNone -> values' !! "id" = Some v).
Proof.
  intros Hset. destruct (set_id_id _ _ Hset) as [Hnone Hkept].
  split; [exact Hnone | split; [|exact Hkept]].
  intros other other' Hother N1 N2 Ea El Et.
  destruct (set_id_id _ _ Hother) as [Hnone' _].
  destruct (Hnone N1) as (a & l & t & oid & Ha & Hl & Ht & Hmk & ->).
  destruct (Hnone' N2) as (a' & l' & t' & oid' & Ha' & Hl' & Ht' & Hmk' & ->).
  congruence.
Qed.

Lemma set_id_spec_witness :
  exists values' oid,
    WGtankStat.set_id (values_example VNone) = Ok values' /\
    WGtankStat.mk_id (VInt 1) (VInt 3) (VInt 2) = Ok oid /\
    values' !! "id" = Some (VObjectId oid).
Proof.
  assert (WGtankStat.set_id (values_example VNone) =
          Ok (<["_region" := VRegion ru]>
                (<["id" := VObjectId (mkObjectId [0; 0; 0; 0; 1; 0; 0; 2; 0; 0; 0; 3])]>
                   (values_example VNone)))) as Hset
    by (vm_compute; reflexivity).
  destruct (set_id_spec _ _ Hset) as [Hnone _].
  destruct Hnone as (a & l & t & oid & Ha & Hl & Ht & Hmk & Hid);
    [vm_compute; reflexivity|].
  vm_compute in Ha. injection Ha as <-.
  vm_compute in Hl. injection Hl as <-.
  vm_compute in Ht. injection Ht as <-.
  eexists _, oid. split; [exact Hset | split; [exact Hmk | exact Hid]].
Defined.

(** C4 as stated fails: a payload for the triple (1, 2, 3) that supplies
    an identifier of twelve zero bytes is constructed with that
    identifier, not with [mk_id] of the triple. *)
Lemma supplied_id_is_kept : ~ id_always_derived.
Proof.
  intros Hderived.
  assert (WGtankStat.set_id (values_example (VObjectId supplied_id)) =
          Ok (<["_region" := VRegion ru]> (values_example (VObjectId supplied_id))))
    as Hset by (vm_compute; reflexivity).
  destruct (Hderived _ _ Hset) as (a & l & t & oid & Ha & Hl & Ht & Hmk & Hid).
  vm_compute in Ha. injection Ha as <-.
  vm_compute in Hl. injection Hl as <-.
  vm_compute in Ht. injection Ht as <-.
  vm_compute in Hmk. injection Hmk as <-.
  vm_compute in Hid. discriminate Hid.
Qed.

End TankStatFacts.

(** * Further properties *)

(** ** Region *)

Section RegionMore.

Import Region_.

Ltac leb_cases :=
  repeat match goal with
         | |- context [?a <=? ?b] => destruct (Z.leb_spec0 a b)
         end.

(** X1: [matches] is symmetric, and it is not transitive: [eu] matches
    [API] and [API] matches [com], yet [eu] does not match [com]. *)
Theorem matches_sym_not_trans :
  (forall a b, matches a b = matches b a) /\
  (exists a b c, matches a b = true /\ matches b c = true /\ matches a c = false).
Proof.
  split.
  - intros a b; destruct a, b; reflexivity.
  - exists eu, API, com. repeat split.
Qed.

(** X2: [from_id] returns a region for every [int], never the wildcard
    [API], and [API] matches the region of an id exactly when the id is
    below the threshold of [china]. *)
Theorem from_id_API (id : Z) :
  exists r, from_id (VInt id) = Ok r /\ r <> API /\
            (matches API r = true <-> id < 3100000000).
Proof.
  rewrite from_id_int. eexists. split; [reflexivity|].
  leb_cases; (split; [discriminate|]); split; intros; try reflexivity;
    try discriminate; lia.
Qed.

End RegionMore.

(** ** Rosters and results *)

Section RosterMore.

Import ReplayJSON.

Implicit Types (self : WoTBlitzReplayJSON) (p : option Z) (x k : Z).

(** X3: [get_players] is the enemies followed by the allies, and
    [get_allies] and [get_enemies] return a roster for exactly the
    participants in that list; for everyone else both raise. *)
Theorem rosters_resolve_for_players self x :
  let s := summary (data self) in
  get_players self = Ok (enemies s ++ allies s) /\
  ((exists l, get_allies self (Some x) = Ok l) <-> x ∈ enemies s ++ allies s) /\
  ((exists l, get_enemies self (Some x) = Ok l) <-> x ∈ enemies s ++ allies s) /\
  (x ∉ enemies s ++ allies s ->
   get_allies self (Some x) = Raise ValueError /\
   get_enemies self (Some x) = Raise ValueError).
Proof.
  intros s. split; [reflexivity|].
  unfold get_allies, get_enemies. fold s. rewrite elem_of_app, <- !py_in_true.
  destruct (py_in x (allies s)), (py_in x (enemies s)); simpl;
    (split; [|split]);
    try (split; [intros _; by auto | intros _; by eexists]);
    try (split; [by intros [l ?] | by intros [? | ?]]);
    try (by intros []; [right | left]);
    try (by intros Hn; exfalso; apply Hn; auto);
    by intros _.
Qed.

Lemma rosters_resolve_for_players_witness :
  get_allies (replay_example win wt_one) (Some 99) = Raise ValueError.
Proof.
  destruct (rosters_resolve_for_players (replay_example win wt_one) 99)
    as (_ & _ & _ & H).
  apply H. simpl. rewrite !not_elem_of_cons. repeat split; try discriminate.
  apply not_elem_of_nil.
Defined.

(** X4: when [get_allies] resolves for a participant, [get_enemies]
    resolves too, the participant is in the roster [get_allies]
    returns, and the two results are the two rosters of the summary,
    in one order or the other. *)
Theorem own_roster self x l :
  let s := summary (data self) in
  get_allies self (Some x) = Ok l ->
  x ∈ l /\
  exists e, get_enemies self (Some x) = Ok e /\
            ((l = allies s /\ e = enemies s) \/ (l = enemies s /\ e = allies s)).
Proof.
  intros s. unfold get_allies, get_enemies. fold s.
  destruct (py_in x (allies s)) eqn:Ha.
  - intros [= <-]. apply py_in_true in Ha. split; [done|]. eexists. split; [done|]. by left.
  - destruct (py_in x (enemies s)) eqn:He; [|done].
    intros [= <-]. apply py_in_true in He. split; [done|]. eexists. split; [done|]. by right.
Qed.

Lemma own_roster_witness :
  21 ∈ [21; 22] /\
  exists e, get_enemies (replay_example win wt_one) (Some 21) = Ok e /\
            (([21; 22] = [11; 12] /\ e = [21; 22]) \/ ([21; 22] = [21; 22] /\ e = [11; 12])).
Proof.
  apply (own_roster (replay_example win wt_one) 21 [21; 22]). reflexivity.
Defined.

(** X5: the two sides see opposite results: when an enemy participant
    asks, the result is the opposite of what no participant, or an ally
    who is not also listed as an enemy, gets. *)
Theorem battle_result_opposite self x p :
  let s := summary (data self) in
  x ∈ enemies s ->
  p = None \/ (exists y, p = Some y /\ (y ∉ enemies s) /\ (y ∈ allies s)) ->
  exists r, get_battle_result self p = Ok r /\
            get_battle_result self (Some x) = Ok (opposite r).
Proof.
  intros s Hx Hp. rewrite !get_battle_result_resultFor. fold s.
  eexists. split; [reflexivity|]. f_equal.
  apply py_in_true in Hx. unfold resultFor. rewrite <- py_in_existsb, Hx.
  destruct Hp as [-> | (y & -> & Hne & Hy)].
  - repeat case_decide; reflexivity.
  - apply py_in_false in Hne. apply py_in_true in Hy.
    rewrite <- !py_in_existsb, Hne, Hy. repeat case_decide; reflexivity.
Qed.

Lemma battle_result_opposite_witness :
  exists r, get_battle_result (replay_example not_win wt_one) (Some 11) = Ok r /\
            get_battle_result (replay_example not_win wt_one) (Some 21) = Ok (opposite r).
Proof.
  apply (battle_result_opposite (replay_example not_win wt_one) 21 (Some 11)); simpl.
  - rewrite !elem_of_cons. auto.
  - right. exists 11. split; [reflexivity|]. split.
    + rewrite !not_elem_of_cons. repeat split; try discriminate. apply not_elem_of_nil.
    + rewrite !elem_of_cons. auto.
Defined.

(** X6: [get_battle_result] always returns, and never the raw value
    [not_win]: a perspective result is one of [incomplete], [win],
    [loss], [draw], whatever the raw result recorded. *)
Theorem battle_result_range self p :
  exists r, get_battle_result self p = Ok r /\ r <> not_win.
Proof.
  rewrite get_battle_result_resultFor. eexists. split; [reflexivity|].
  unfold resultFor.
  repeat (case_decide || case_match); discriminate.
Qed.

End RosterMore.

(** ** Platoons *)

Section PlatoonMore.

Import ReplayJSON.

Implicit Types (self : WoTBlitzReplayJSON) (p : option Z) (x k : Z).

Lemma get_platoons_Ok self p ap ep :
  get_platoons self p = Ok (ap, ep) -> exists al, get_allies self p = Ok al.
Proof.
  unfold get_platoons. destruct (get_allies self p) as [al|]; [|done]. by exists al.
Qed.

Lemma default_group (l : list Z) : default [] (group l) = l.
Proof. by destruct l. Qed.

Lemma members_ext al al' k rows :
  (forall d, d ∈ rows -> py_in (dbid d) al = negb (py_in (dbid d) al')) ->
  members true al k rows = members false al' k rows.
Proof.
  intros Hrows. unfold members. f_equal. apply List.filter_ext_in.
  intros d Hd%list_elem_of_In. rewrite (Hrows d Hd).
  by destruct (py_in (dbid d) al').
Qed.

Lemma members_length al k rows :
  (length (members true al k rows) + length (members false al k rows))%nat =
  length (List.filter (in_platoon k) rows).
Proof.
  unfold members. rewrite !length_map.
  induction rows as [|d rows IH]; [done|]. simpl.
  destruct (in_platoon k d), (py_in (dbid d) al); simpl; lia.
Qed.

(** X7: an ally's view of the platoons is the view without a
    participant; and when every detail row belongs to exactly one of the
    two rosters, an enemy's view is that view with the two groupings
    exchanged. *)
Theorem get_platoons_views self x :
  let s := summary (data self) in
  (x ∈ allies s -> get_platoons self (Some x) = get_platoons self None) /\
  (x ∉ allies s -> x ∈ enemies s ->
   (forall d, d ∈ details s -> dbid d ∈ enemies s <-> dbid d ∉ allies s) ->
   exists ap ep,
     get_platoons self None = Ok (ap, ep) /\
     get_platoons self (Some x) = Ok (ep, ap)).
Proof.
  intros s. split.
  - intros Hx%py_in_true. unfold get_platoons, get_allies. fold s. by rewrite Hx.
  - intros Hna%py_in_false He%py_in_true Hrows.
    assert (get_allies self (Some x) = Ok (enemies s)) as Hal
      by (unfold get_allies; fold s; by rewrite Hna, He).
    destruct (get_platoons_groups self None (allies s) eq_refl)
      as (ap & ep & Hnone & Hg).
    destruct (get_platoons_groups self (Some x) (enemies s) Hal)
      as (ap' & ep' & Hsome & Hg').
    fold s in Hg, Hg'.
    assert (forall d, d ∈ details s ->
              py_in (dbid d) (enemies s) = negb (py_in (dbid d) (allies s))) as Hb.
    { intros d Hd. specialize (Hrows d Hd). apply eq_true_iff_eq.
      rewrite negb_true_iff, py_in_true, py_in_false. done. }
    assert (forall d, d ∈ details s ->
              py_in (dbid d) (allies s) = negb (py_in (dbid d) (enemies s))) as Hb'.
    { intros d Hd. rewrite (Hb d Hd). by destruct (py_in (dbid d) (allies s)). }
    assert (ap' = ep) as ->.
    { apply map_eq. intros k. rewrite (proj1 (Hg' k)), (proj2 (Hg k)).
      f_equal. by apply members_ext. }
    assert (ep' = ap) as ->.
    { apply map_eq. intros k. rewrite (proj2 (Hg' k)), (proj1 (Hg k)).
      f_equal. symmetry. by apply members_ext. }
    by exists ap, ep.
Qed.

Lemma get_platoons_views_witness :
  exists ap ep,
    get_platoons replay_two_sides None = Ok (ap, ep) /\
    get_platoons replay_two_sides (Some 21) = Ok (ep, ap).
Proof.
  destruct (get_platoons_views replay_two_sides 21) as [_ H]. apply H; simpl.
  - rewrite !not_elem_of_cons. repeat split; try discriminate. apply not_elem_of_nil.
  - rewrite !elem_of_cons. auto.
  - intros d Hd. rewrite <- py_in_true, <- py_in_false.
    repeat (apply elem_of_cons in Hd as [-> | Hd]);
      [..| by apply elem_of_nil in Hd];
      vm_compute; split; intros Hb; first [reflexivity | discriminate Hb].
Defined.

(** X8: nothing is lost and nothing is listed twice: in the result of
    [get_platoons], the members of platoon [k] in the allied grouping
    and in the enemy grouping together are as many as the detail rows
    with the positive index [k]. *)
Theorem get_platoons_counts self p ap ep k :
  get_platoons self p = Ok (ap, ep) ->
  (length (default [] (ap !! k)) + length (default [] (ep !! k)))%nat =
  length (List.filter (in_platoon k) (details (summary (data self)))).
Proof.
  intros Hget. destruct (get_platoons_Ok _ _ _ _ Hget) as [al Hal].
  destruct (get_platoons_groups self p al Hal) as (ap' & ep' & Hget' & Hg).
  rewrite Hget in Hget'. injection Hget' as <- <-.
  rewrite (proj1 (Hg k)), (proj2 (Hg k)), !default_group.
  by apply members_length.
Qed.

Lemma get_platoons_counts_witness :
  exists ap ep,
    get_platoons (replay_example win wt_one) None = Ok (ap, ep) /\
    Nat.add (length (default [] (ap !! 2))) (length (default [] (ep !! 2))) = 2%nat.
Proof.
  destruct (get_platoons (replay_example win wt_one) None) as [[ap ep]|] eqn:Hget;
    [|discriminate Hget].
  exists ap, ep. split; [reflexivity|].
  apply (get_platoons_counts (replay_example win wt_one) None ap ep 2 Hget).
Defined.

End PlatoonMore.

(** ** Identity of a replay record and its data *)

Section IdentityMore.

Import ReplayData.

Implicit Types (s u seg pre i : string) (values : gmap string (option string)).

Lemma store_id_Ok_cases values v' :
  store_id values = Ok v' ->
  (v' = values /\ values !! "id" = Some None) \/
  (exists i, v' = <["download_url" := Some (_DLurlBase +:+ i)]>
                    (<["view_url" := Some (_ViewUrlBase +:+ i)]>
                       (<["id" := Some i]> values))).
Proof.
  unfold store_id, try_except. intros Hs.
  destruct (_ ≫= _) as [res|] eqn:Hbody in Hs; [|done]. injection Hs as ->.
  apply bind_Ok in Hbody as (vid & Hvid%dict_get_Ok & Hbody).
  apply bind_Ok in Hbody as ([i|] & Hfound & Hres); injection Hres as <-.
  - right. by exists i.
  - left. split; [done|]. by destruct vid.
Qed.

Lemma store_id_explicit values i :
  values !! "id" = Some (Some i) ->
  store_id values =
  Ok (<["download_url" := Some (_DLurlBase +:+ i)]>
        (<["view_url" := Some (_ViewUrlBase +:+ i)]> (<["id" := Some i]> values))).
Proof. intros Hid. unfold store_id, dict_get. by rewrite Hid. Qed.

(** X9: the validator is idempotent: running [store_id] on fields it
    has returned gives the same fields back, so the re-validation that
    every assignment triggers leaves a resolved record as it is. *)
Theorem store_id_idempotent values v' :
  store_id values = Ok v' -> store_id v' = Ok v'.
Proof.
  intros Hs. destruct (store_id_Ok_cases _ _ Hs) as [[-> _] | [i ->]]; [done|].
  rewrite (store_id_explicit _ i) by by simplify_map_eq.
  f_equal. apply map_eq. intros k.
  destruct (decide (k = "download_url")) as [-> | ?]; [by simplify_map_eq|].
  destruct (decide (k = "view_url")) as [-> | ?]; [by simplify_map_eq|].
  destruct (decide (k = "id")) as [-> | ?]; by simplify_map_eq.
Qed.

Lemma store_id_idempotent_witness :
  exists v', store_id (<["id" := Some "abc"]> ∅) = Ok v' /\ store_id v' = Ok v'.
Proof.
  eexists. split; [reflexivity|].
  apply (store_id_idempotent (<["id" := Some "abc"]> ∅)). reflexivity.
Defined.

Lemma prefix_app s r : String.prefix s (s +:+ r) = true.
Proof.
  induction s as [|c s IH]; [by destruct r|].
  change (String.prefix (String c s) (String c (s +:+ r)) = true). simpl.
  destruct (ascii_dec c c); [done | congruence].
Qed.

Lemma rsplit1_no_slash s : no_slash s = true -> rsplit1 "/" s = [s].
Proof.
  induction s as [|c r IH]; [done|]. simpl.
  intros [Hc Hr]%andb_true_iff. apply negb_true_iff in Hc.
  by rewrite (IH Hr), Hc.
Qed.

Lemma rsplit1_app_slash pre seg :
  no_slash seg = true -> rsplit1 "/" (pre +:+ String "/" seg) = [pre; seg].
Proof.
  intros Hseg. induction pre as [|c r IH].
  - change (rsplit1 "/" (String "/" seg) = [""; seg]). simpl.
    by rewrite (rsplit1_no_slash _ Hseg).
  - change (rsplit1 "/" (String c (r +:+ String "/" seg)) = [String c r; seg]).
    simpl. by rewrite IH.
Qed.

(** The last element of [url.rsplit('/', 1)] is the trailing segment. *)
Lemma last_rsplit1_trailing u seg :
  trailing_segment u seg -> index_last (rsplit1 "/" u) = Ok seg.
Proof.
  intros [Hseg [-> | [pre ->]]]; unfold index_last.
  - by rewrite (rsplit1_no_slash _ Hseg).
  - by rewrite (rsplit1_app_slash _ _ Hseg).
Qed.

Lemma get_replay_id_Ok (url : option string) : exists r, Links.get_replay_id url = Ok r.
Proof.
  unfold Links.get_replay_id. destruct url as [u|]; [|by eexists].
  destruct (String.prefix _ u); [|by eexists].
  destruct (trailing_segment_exists u) as [seg Hseg].
  rewrite (last_rsplit1_trailing _ _ Hseg). by eexists.
Qed.

(** X10: [get_replay_id] answers [None] for no URL and for a URL that
    does not start with the download prefix, and the trailing segment of
    a URL that does; it never raises. *)
Theorem get_replay_id_spec (url : option string) :
  (url = None -> Links.get_replay_id url = Ok None) /\
  (forall u, url = Some u -> String.prefix Links.URL_REPLAY_DL u = false ->
             Links.get_replay_id url = Ok None) /\
  (forall u seg, url = Some u -> String.prefix Links.URL_REPLAY_DL u = true ->
                 trailing_segment u seg -> Links.get_replay_id url = Ok (Some seg)) /\
  (exists r, Links.get_replay_id url = Ok r).
Proof.
  unfold Links.get_replay_id. repeat split.
  - by intros ->.
  - by intros u -> ->.
  - intros u seg -> -> Hseg. by rewrite (last_rsplit1_trailing _ _ Hseg).
  - apply get_replay_id_Ok.
Qed.

Lemma get_replay_id_spec_witness :
  Links.get_replay_id (Some "https://replays.wotinspector.com/en/download/abc123")
  = Ok (Some "abc123") /\
  Links.get_replay_id (Some "https://replays.wotinspector.com/en/view/abc123")
  = Ok None.
Proof.
  split.
  - destruct (get_replay_id_spec
                (Some "https://replays.wotinspector.com/en/download/abc123"))
      as (_ & _ & H & _).
    apply (H "https://replays.wotinspector.com/en/download/abc123" "abc123");
      [reflexivity | reflexivity |].
    split; [reflexivity|]. right.
    exists "https://replays.wotinspector.com/en/download". reflexivity.
  - destruct (get_replay_id_spec
                (Some "https://replays.wotinspector.com/en/view/abc123"))
      as (_ & H & _).
    apply (H "https://replays.wotinspector.com/en/view/abc123"); reflexivity.
Defined.

Lemma trailing_of_template base i :
  no_slash i = true -> (exists b, base = b +:+ "/") ->
  trailing_segment (base +:+ i) i.
Proof.
  intros Hi [b ->]. split; [done|]. right. exists b.
  rewrite app_assoc. done.
Qed.

(** X11: the URLs built from the templates lead back to the id: for an
    id without a slash, fields that hold only the view URL (or only the
    download URL) of that id resolve to the same id, and the client's
    [get_replay_id] reads the id off the download URL that [store_id]
    builds. *)
Theorem url_templates_round_trip values i :
  no_slash i = true ->
  values !! "id" = Some None ->
  ((values !! "view_url" = Some (Some (_ViewUrlBase +:+ i)) \/
    (values !! "view_url" = Some None /\
     values !! "download_url" = Some (Some (_DLurlBase +:+ i)))) ->
   exists v', store_id values = Ok v' /\ resolves_to values v' i) /\
  Links.get_replay_id (Some (_DLurlBase +:+ i)) = Ok (Some i) /\
  Links.get_replay_id (Some (Links.get_url_replay_view i)) = Ok None.
Proof.
  intros Hi Hid.
  assert (trailing_segment (_ViewUrlBase +:+ i) i) as Tv.
  { apply trailing_of_template; [done|].
    by exists "https://replays.wotinspector.com/en/view". }
  assert (trailing_segment (_DLurlBase +:+ i) i) as Td.
  { apply trailing_of_template; [done|].
    by exists "https://replays.wotinspector.com/en/download". }
  split; [|split].
  - unfold store_id, dict_get. rewrite Hid. cbn [mbind result_bind].
    intros [Hv | [Hv Hd]]; rewrite Hv; cbn [mbind result_bind].
    + rewrite (last_split_trailing _ _ Tv). cbn [mbind result_bind try_except].
      eexists. split; [done|]. apply store_id_resolved.
    + rewrite Hd. cbn [mbind result_bind].
      rewrite (last_split_trailing _ _ Td). cbn [mbind result_bind try_except].
      eexists. split; [done|]. apply store_id_resolved.
  - unfold Links.get_replay_id.
    replace (String.prefix Links.URL_REPLAY_DL (_DLurlBase +:+ i)) with true
      by (symmetry; apply (prefix_app _DLurlBase i)).
    by rewrite (last_rsplit1_trailing _ _ Td).
  - reflexivity.
Qed.

Lemma url_templates_round_trip_witness :
  (exists v',
     store_id (<["id" := None]> (<["view_url" := Some (_ViewUrlBase +:+ "abc123")]> ∅))
     = Ok v' /\
     v' !! "id" = Some (Some "abc123")) /\
  Links.get_replay_id (Some (_DLurlBase +:+ "abc123")) = Ok (Some "abc123").
Proof.
  destruct (url_templates_round_trip
              (<["id" := None]> (<["view_url" := Some (_ViewUrlBase +:+ "abc123")]> ∅))
              "abc123") as (Hstore & Hget & _); [reflexivity | reflexivity |].
  split; [|exact Hget].
  destruct Hstore as (v' & Hv' & (Hi & _) & _); [left; reflexivity|].
  exists v'. split; [exact Hv' | exact Hi].
Defined.

(** *** The identifier of the record and of its data *)

Lemma assign_id_Ok (d : WoTBlitzReplayData) i :
  assign_id d i =
  Ok (mkData (Some (_ViewUrlBase +:+ i)) (Some (_DLurlBase +:+ i)) (Some i) (summary d)).
Proof.
  unfold assign_id. rewrite (store_id_explicit _ i) by by simplify_map_eq.
  cbn [mbind result_bind]. unfold dict_get. by simplify_map_eq.
Qed.

(** X12: after the root validator of [WoTBlitzReplayJSON], the
    identifier of the record and the identifier of its data are the
    same, and [get_id] returns it; an identifier given for the record
    wins over the one of the data, and without one the record takes the
    identifier of the data, which stays as it is; without validated data
    the validator raises [ValueError]. *)
Theorem json_store_id_agree (values values' : json_values) :
  (ReplayJSONId.store_id values = Ok values' ->
   exists d',
     v_data values' = Some d' /\ v_id values' = Some (data_id d') /\
     (forall status, ReplayJSONId.get_id (mkReplay (data_id d') status d') = data_id d') /\
     (forall i, v_id values = Some (Some i) -> data_id d' = Some i) /\
     (v_id values = None \/ v_id values = Some None -> v_data values = Some d')) /\
  (v_data values = None -> ReplayJSONId.store_id values = Raise ValueError).
Proof.
  unfold ReplayJSONId.store_id, ReplayJSONId.values_data, try_except. split.
  - destruct (v_data values) as [d|] eqn:Hd.
    + destruct (v_id values) as [[i|]|] eqn:Hi; cbn [mbind result_bind].
      * rewrite assign_id_Ok. cbn [mbind result_bind]. intros [= <-].
        eexists. repeat split; try done.
        -- by intros j [= ->].
        -- by intros [|].
      * intros [= <-]. exists d. repeat split; try done.
        intros status. unfold ReplayJSONId.get_id. simpl. by destruct (data_id d).
      * intros [= <-]. exists d. repeat split; try done.
        intros status. unfold ReplayJSONId.get_id. simpl. by destruct (data_id d).
    + by destruct (v_id values) as [[i|]|].
  - intros ->. by destruct (v_id values) as [[i|]|].
Qed.

Lemma json_store_id_agree_witness :
  exists d',
    v_id (mkJsonValues (Some (Some "abc"))
            (Some (mkData (Some (_ViewUrlBase +:+ "abc")) (Some (_DLurlBase +:+ "abc"))
                     (Some "abc") (summary (data (replay_example win wt_one))))))
    = Some (data_id d') /\
    data_id d' = Some "abc".
Proof.
  destruct (json_store_id_agree
              (mkJsonValues (Some (Some "abc")) (Some (data (replay_example win wt_one))))
              (mkJsonValues (Some (Some "abc"))
                 (Some (mkData (Some (_ViewUrlBase +:+ "abc")) (Some (_DLurlBase +:+ "abc"))
                          (Some "abc") (summary (data (replay_example win wt_one)))))))
    as [H _].
  destruct H as (d' & _ & Hagree & _ & Hid & _); [reflexivity|].
  exists d'. split; [exact Hagree|]. apply Hid. reflexivity.
Defined.

(** X13: an identifier given for the record replaces the whole identity
    of the data: the assignment re-validates the data, so its id and
    both of its URLs are rebuilt from the record's identifier, whatever
    they were. *)
Theorem json_store_id_overrides (values : json_values) (d : WoTBlitzReplayData) i :
  v_id values = Some (Some i) -> v_data values = Some d ->
  ReplayJSONId.store_id values =
  Ok (mkJsonValues (Some (Some i))
        (Some (mkData (Some (_ViewUrlBase +:+ i)) (Some (_DLurlBase +:+ i)) (Some i)
                 (summary d)))).
Proof.
  intros Hi Hd. unfold ReplayJSONId.store_id, ReplayJSONId.values_data.
  rewrite Hi, Hd. cbn [mbind result_bind]. by rewrite assign_id_Ok.
Qed.

Lemma json_store_id_overrides_witness :
  ReplayJSONId.store_id
    (mkJsonValues (Some (Some "abc"))
       (Some (mkData (Some "https://replays.wotinspector.com/en/view/xyz") None
                (Some "xyz") (summary (data (replay_example win wt_one)))))) =
  Ok (mkJsonValues (Some (Some "abc"))
        (Some (mkData (Some (_ViewUrlBase +:+ "abc")) (Some (_DLurlBase +:+ "abc"))
                 (Some "abc") (summary (data (replay_example win wt_one)))))).
Proof.
  apply (json_store_id_overrides _
           (mkData (Some "https://replays.wotinspector.com/en/view/xyz") None
              (Some "xyz") (summary (data (replay_example win wt_one)))) "abc");
    reflexivity.
Defined.

(** *** Replay links of a listing page *)

Lemma collect_ids_elem (links : list (option string)) (acc : gset string) x :
  x ∈ Links.collect_ids links acc <->
  x ∈ acc \/ exists u, Some u ∈ links /\ Links.get_replay_id (Some u) = Ok (Some x).
Proof.
  revert acc. induction links as [|link links IH]; intros acc; cbn [Links.collect_ids].
  - split; [by left|]. intros [? | (u & Hu & _)]; [done|]. by apply elem_of_nil in Hu.
  - destruct (get_replay_id_Ok link) as [r Hr]. rewrite Hr.
    destruct r as [i|]; rewrite IH.
    + rewrite elem_of_union, elem_of_singleton. split.
      * intros [[-> | ?] | (u & Hu & Hx)]; [|by left|].
        -- right. destruct link as [u|]; [|done]. exists u. split; [left|done].
        -- right. exists u. split; [by right|done].
      * intros [? | (u & Hu & Hx)]; [by left; right|].
        apply elem_of_cons in Hu as [<- | Hu].
        -- left. left. rewrite Hr in Hx. by injection Hx as ->.
        -- right. by exists u.
    + split.
      * intros [? | (u & Hu & Hx)]; [by left|]. right. exists u. split; [by right|done].
      * intros [? | (u & Hu & Hx)]; [by left|].
        apply elem_of_cons in Hu as [<- | Hu]; [congruence|]. right. by exists u.
Qed.

(** X14: [parse_replay_ids] returns exactly the ids that
    [get_replay_id] reads off the anchors of the page, so the result
    does not depend on the order or the repetition of the anchors; when
    the HTML parser raises, the result is the empty set. *)
Theorem parse_replay_ids_spec `{Sp : Soup} (doc : string) :
  (forall links, find_all_hrefs doc = Ok links ->
     forall x, x ∈ Links.parse_replay_ids doc <->
               exists u, Some u ∈ links /\ Links.get_replay_id (Some u) = Ok (Some x)) /\
  (forall e, find_all_hrefs doc = Raise e -> Links.parse_replay_ids doc = ∅) /\
  (forall links links' : list (option string),
     (forall l, l ∈ links <-> l ∈ links') ->
     Links.collect_ids links ∅ = Links.collect_ids links' ∅).
Proof.
  unfold Links.parse_replay_ids. split; [|split].
  - intros links -> x. rewrite collect_ids_elem. split; [|by right].
    intros [Hx | Hx]; [|done]. by apply not_elem_of_empty in Hx.
  - by intros e ->.
  - intros links links' Hsame. apply set_eq. intros x.
    rewrite !collect_ids_elem. split; intros [? | (u & Hu & Hx)]; try (by left);
      right; exists u; (split; [by apply Hsame | done]).
Qed.

End IdentityMore.

Lemma parse_replay_ids_spec_witness :
  "abc123" ∈ Links.parse_replay_ids (Sp := soup_example) "<html>".
Proof.
  destruct (parse_replay_ids_spec (Sp := soup_example) "<html>") as [H _].
  apply (H _ eq_refl "abc123").
  exists "https://replays.wotinspector.com/en/download/abc123". split.
  - apply list_elem_of_here.
  - reflexivity.
Defined.

(** ** The tank-statistics identifier, further *)

Section TankStatMore.

Implicit Types (s r : string) (c : ascii) (w : nat) (n d a t l : Z)
  (values : gmap string pyval).

Import WGtankStat.

Lemma forallb_app test s r :
  string_forallb test (s +:+ r) = string_forallb test s && string_forallb test r.
Proof.
  induction s as [|c s IH]; [done|].
  change (test c && string_forallb test (s +:+ r) =
          test c && string_forallb test s && string_forallb test r).
  by rewrite IH, andb_assoc.
Qed.

Lemma forallb_zeros test k : test "0"%char = true -> string_forallb test (zeros k) = true.
Proof. intros H0. induction k as [|k IH]; [done|]. simpl. by rewrite H0, IH. Qed.

Lemma forallb_hex_fixed test w n :
  (forall d, 0 <= d < 16 -> test (hex_digit d) = true) ->
  string_forallb test (hex_fixed w n) = true.
Proof.
  intros Hd. induction w as [|w IH]; [done|]. simpl.
  rewrite IH, Hd; [done|]. apply Z.mod_pos_bound. lia.
Qed.

Lemma forallb_cons test c s :
  test c = true -> string_forallb test (String c s) = string_forallb test s.
Proof. intros Hc. simpl. by rewrite Hc. Qed.

Lemma hex_digit_no_space d : 0 <= d < 16 -> negb (Ascii.is_space (hex_digit d)) = true.
Proof. intros Hd. by rewrite (proj1 (hex_digit_plain d Hd)). Qed.

Lemma hex_digit_is_hex d : 0 <= d < 16 -> is_hex (hex_digit d) = true.
Proof. intros Hd. unfold is_hex. by rewrite (hex_value_digit d Hd). Qed.

(** The segment of a negative component: padding, then the [x] that is
    left of the prefix [-0x], then the digits. *)
Lemma zfill_hex_neg w n :
  n < 0 ->
  zfill w (str_drop 2 (hex n)) =
  zeros (w - S (hex_len (- n))) +:+ String "x" (hex_fixed (hex_len (- n)) (- n)).
Proof.
  intros Hn. rewrite hex_digits, (proj2 (Z.ltb_lt n 0) Hn).
  change (str_drop 2 ("-0x" +:+ ?s)) with (String "x" s).
  unfold zfill. cbn [String.length]. by rewrite length_hex_fixed.
Qed.

Lemma segment_no_space w n :
  string_forallb (fun c => negb (Ascii.is_space c)) (zfill w (str_drop 2 (hex n))) = true.
Proof.
  destruct (Z.lt_ge_cases n 0) as [Hn | Hn].
  - rewrite (zfill_hex_neg _ _ Hn), forallb_app, forallb_zeros, forallb_cons by done.
    cbn [andb]. apply forallb_hex_fixed, hex_digit_no_space.
  - rewrite (zfill_hex _ _ Hn), forallb_app, forallb_zeros by done.
    cbn [andb]. apply forallb_hex_fixed, hex_digit_no_space.
Qed.

Lemma segment_neg_not_hex w n :
  n < 0 -> string_forallb is_hex (zfill w (str_drop 2 (hex n))) = false.
Proof.
  intros Hn. rewrite (zfill_hex_neg _ _ Hn), forallb_app.
  apply andb_false_iff. by right.
Qed.

(** [bytes.fromhex] rejects a string with a character that is neither a
    digit nor whitespace. *)
Lemma bytes_fromhex_not_hex s :
  string_forallb (fun c => negb (Ascii.is_space c)) s = true ->
  string_forallb is_hex s = false ->
  bytes_fromhex s = None.
Proof.
  assert (forall k s, (String.length s <= k)%nat ->
            string_forallb (fun c => negb (Ascii.is_space c)) s = true ->
            string_forallb is_hex s = false -> bytes_fromhex s = None) as Hind.
  { clear s. induction k as [|k IH]; intros s Hlen Hsp Hbad.
    - destruct s; [simpl in Hbad; discriminate | simpl in Hlen; lia].
    - destruct s as [|c1 [|c2 r]]; [simpl in Hbad; discriminate | |].
      + simpl in Hsp. apply andb_true_iff in Hsp as [H1%negb_true_iff _].
        simpl. by rewrite H1.
      + cbn [string_forallb] in Hsp, Hbad.
        apply andb_true_iff in Hsp as [H1%negb_true_iff Hsp].
        apply andb_true_iff in Hsp as [H2 Hsp].
        cbn [bytes_fromhex]. rewrite H1. unfold is_hex in Hbad.
        destruct (hex_value c1); [|done]. destruct (hex_value c2); [|done].
        simpl in Hbad. rewrite (IH r); [done | simpl in Hlen; lia | done | done]. }
  intros. by eapply Hind.
Qed.

Lemma ObjectId_of_not_hex s :
  string_forallb (fun c => negb (Ascii.is_space c)) s = true ->
  string_forallb is_hex s = false ->
  ObjectId_of_str s = Raise InvalidId.
Proof.
  intros Hsp Hbad. unfold ObjectId_of_str.
  rewrite (bytes_fromhex_not_hex _ Hsp Hbad). by destruct (_ =? _)%nat.
Qed.

(** [mk_id] within the widths: the identifier of the three padded
    segments. *)
Lemma mk_id_fit a t l :
  in_range a t l ->
  exists oid,
    mk_id (VInt a) (VInt l) (VInt t) = Ok oid /\
    ObjectId_str oid = hex_fixed 10 a +:+ hex_fixed 6 t +:+ hex_fixed 8 l.
Proof.
  intros ([Ha Ba] & [Ht Bt] & [Hl Bl]).
  assert (16 ^ Z.of_nat 10 = 2 ^ 40) as E10 by reflexivity.
  assert (16 ^ Z.of_nat 6 = 2 ^ 24) as E6 by reflexivity.
  assert (16 ^ Z.of_nat 8 = 2 ^ 32) as E8 by reflexivity.
  unfold mk_id, py_hex. cbn [mbind result_bind].
  rewrite app_assoc, !zfill_hex_fit by lia.
  apply ObjectId_of_digits.
  - by rewrite !length_app, !length_hex_fixed.
  - by rewrite !all_hex_app, !all_hex_hex_fixed.
Qed.

(** [mk_id] outside the widths or on a negative component. *)
Lemma mk_id_out a t l :
  ~ in_range a t l -> mk_id (VInt a) (VInt l) (VInt t) = Raise InvalidId.
Proof.
  intros Hout. unfold mk_id, py_hex. cbn [mbind result_bind]. rewrite app_assoc.
  destruct (decide (a < 0 \/ t < 0 \/ l < 0)) as [Hneg | Hpos].
  - apply ObjectId_of_not_hex.
    + by rewrite !forallb_app, !segment_no_space.
    + rewrite !forallb_app.
      destruct Hneg as [H | [H | H]]; rewrite (segment_neg_not_hex _ _ H);
        by rewrite ?andb_false_r.
  - apply ObjectId_of_long.
    rewrite !length_app, !length_zfill_hex by lia.
    assert (10 < hex_len a \/ 6 < hex_len t \/ 8 < hex_len l)%nat as Hlen.
    { unfold in_range in Hout.
      destruct (Z.lt_ge_cases a (2 ^ 40)); [|left; apply hex_len_gt; lia].
      destruct (Z.lt_ge_cases t (2 ^ 24)); [|right; left; apply hex_len_gt; lia].
      destruct (Z.lt_ge_cases l (2 ^ 32)); [|right; right; apply hex_len_gt; lia].
      lia. }
    lia.
Qed.

(** X15: on integers, [mk_id] returns an identifier exactly for the
    unsigned triples within the three widths; for every other triple,
    a negative component included, it raises [InvalidId]; and a
    component that is no integer is a [TypeError]. *)
Theorem mk_id_domain a t l :
  ((exists oid, mk_id (VInt a) (VInt l) (VInt t) = Ok oid) <-> in_range a t l) /\
  (~ in_range a t l -> mk_id (VInt a) (VInt l) (VInt t) = Raise InvalidId) /\
  mk_id VNone (VInt l) (VInt t) = Raise TypeError /\
  mk_id (VInt a) VNone (VInt t) = Raise TypeError /\
  mk_id (VInt a) (VInt l) VNone = Raise TypeError.
Proof.
  split; [|split; [apply mk_id_out | by repeat split]].
  split.
  - intros [oid Hoid]. destruct (decide (in_range a t l)) as [|Hout]; [done|].
    by rewrite (mk_id_out _ _ _ Hout) in Hoid.
  - intros Hin. destruct (mk_id_fit _ _ _ Hin) as (oid & Hoid & _). by exists oid.
Qed.

Lemma mk_id_domain_witness :
  mk_id (VInt (-1)) (VInt 3) (VInt 2) = Raise InvalidId.
Proof.
  destruct (mk_id_domain (-1) 2 3) as (_ & H & _). apply H.
  intros ([H0 _] & _). apply H0. reflexivity.
Defined.

Lemma hex_string_value_app acc s r :
  hex_string_value acc (s +:+ r) =
  match hex_string_value acc s with
  | Some v => hex_string_value v r
  | None => None
  end.
Proof.
  revert acc. induction s as [|c s IH]; intros acc; [done|].
  change (hex_string_value acc (String c (s +:+ r))) with
    (match hex_value c with
     | Some d => hex_string_value (16 * acc + d) (s +:+ r)
     | None => None
     end).
  simpl. destruct (hex_value c); [apply IH | done].
Qed.

Lemma mk_id_number a t l oid :
  in_range a t l ->
  mk_id (VInt a) (VInt l) (VInt t) = Ok oid ->
  id_number oid = Some (a * 2 ^ 56 + t * 2 ^ 32 + l).
Proof.
  intros Hin Hoid. destruct (mk_id_fit _ _ _ Hin) as (oid' & Hoid' & Hstr).
  rewrite Hoid in Hoid'. injection Hoid' as <-.
  destruct Hin as ([Ha Ba] & [Ht Bt] & [Hl Bl]).
  unfold id_number. rewrite Hstr.
  rewrite hex_string_value_app, hex_string_value_fixed. cbv iota.
  rewrite hex_string_value_app, hex_string_value_fixed. cbv iota.
  rewrite hex_string_value_fixed.
  change (16 ^ Z.of_nat 10) with (2 ^ 40). change (16 ^ Z.of_nat 6) with (2 ^ 24).
  change (16 ^ Z.of_nat 8) with (2 ^ 32).
  rewrite !Z.mod_small by lia. f_equal.
  change (2 ^ 56) with (2 ^ 24 * 2 ^ 32). lia.
Qed.

(** X16: read as one number, the identifier of an in-range triple is
    account * 2^56 + tank * 2^32 + time; so identifiers sort by account
    id, then by tank id, then by last battle time, and different triples
    get different identifiers. *)
Theorem mk_id_sorts a t l a' t' l' oid oid' :
  in_range a t l -> in_range a' t' l' ->
  mk_id (VInt a) (VInt l) (VInt t) = Ok oid ->
  mk_id (VInt a') (VInt l') (VInt t') = Ok oid' ->
  exists n n',
    id_number oid = Some n /\ id_number oid' = Some n' /\
    n = a * 2 ^ 56 + t * 2 ^ 32 + l /\
    (n < n' <-> a < a' \/ (a = a' /\ (t < t' \/ (t = t' /\ l < l')))) /\
    (oid = oid' -> a = a' /\ t = t' /\ l = l').
Proof.
  intros Hin Hin' Hoid Hoid'.
  pose proof (mk_id_number _ _ _ _ Hin Hoid) as Hn.
  pose proof (mk_id_number _ _ _ _ Hin' Hoid') as Hn'.
  exists (a * 2 ^ 56 + t * 2 ^ 32 + l), (a' * 2 ^ 56 + t' * 2 ^ 32 + l').
  split; [done|]. split; [done|]. split; [done|].
  destruct Hin as ([Ha Ba] & [Ht Bt] & [Hl Bl]).
  destruct Hin' as ([Ha' Ba'] & [Ht' Bt'] & [Hl' Bl']).
  change (2 ^ 56) with 72057594037927936. change (2 ^ 32) with 4294967296.
  change (2 ^ 24) with 16777216 in *. change (2 ^ 32) with 4294967296 in *.
  split; [lia|].
  intros ->. rewrite Hn in Hn'. injection Hn' as Hn'.
  change (2 ^ 56) with 72057594037927936 in Hn'.
  change (2 ^ 32) with 4294967296 in Hn'. lia.
Qed.

Lemma mk_id_sorts_witness :
  exists oid oid' n n',
    mk_id (VInt 1) (VInt 3) (VInt 2) = Ok oid /\
    mk_id (VInt 1) (VInt 0) (VInt 3) = Ok oid' /\
    id_number oid = Some n /\ id_number oid' = Some n' /\ n < n'.
Proof.
  destruct (mk_id (VInt 1) (VInt 3) (VInt 2)) as [oid|] eqn:H1; [|discriminate H1].
  destruct (mk_id (VInt 1) (VInt 0) (VInt 3)) as [oid'|] eqn:H2; [|discriminate H2].
  destruct (mk_id_sorts 1 2 3 1 3 0 oid oid') as (n & n' & Hn & Hn' & _ & Hlt & _);
    [repeat split; (discriminate || reflexivity) ..| exact H1 | exact H2 |].
  exists oid, oid', n, n'. repeat split; try assumption.
  apply Hlt. right. split; [reflexivity|]. left. reflexivity.
Defined.

(** *** [set_id], further *)

(** The region stage of [set_id], by cases on the region it finds. *)
Lemma region_stage_inv values v' :
  match values !! "_region" with
  | None | Some VNone =>
      x ← dict_get values "account_id";
      y ← Region_.from_id x;
      Ok (<["_region" := VRegion y]> values)
  | Some _ => Ok values
  end = Ok v' ->
  (exists y, values !! "_region" = Some y /\ y <> VNone /\ v' = values) \/
  ((values !! "_region" = None \/ values !! "_region" = Some VNone) /\
   exists (av : pyval) (rg : Region), values !! "account_id" = Some av /\ Region_.from_id av = Ok rg /\
               v' = <["_region" := VRegion rg]> values).
Proof.
  assert (forall m : result (gmap string pyval),
            m = (x ← dict_get values "account_id";
                 y ← Region_.from_id x;
                 Ok (<["_region" := VRegion y]> values)) ->
            m = Ok v' ->
            exists (av : pyval) (rg : Region), values !! "account_id" = Some av /\ Region_.from_id av = Ok rg /\
                        v' = <["_region" := VRegion rg]> values) as Hins.
  { intros m -> Hm.
    apply bind_Ok in Hm as (x & Ha%dict_get_Ok & Hm).
    apply bind_Ok in Hm as (y & Hr & Hm). injection Hm as <-. by exists x, y. }
  destruct (values !! "_region") as [y|] eqn:Hy.
  - destruct y; intros Hm;
      try (left; eexists; split; [done|]; split; [done|]; by injection Hm as <-).
    right. split; [by right|]. by eapply Hins.
  - intros Hm. right. split; [by left|]. by eapply Hins.
Qed.

Lemma set_id_inv values v' :
  set_id values = Ok v' ->
  exists vid values1,
    values !! "id" = Some vid /\
    ((vid <> VNone /\ values1 = values) \/
     (vid = VNone /\ exists oid, values1 = <["id" := VObjectId oid]> values)) /\
    ((exists y, values1 !! "_region" = Some y /\ y <> VNone /\ v' = values1) \/
     ((values1 !! "_region" = None \/ values1 !! "_region" = Some VNone) /\
      exists (av : pyval) (rg : Region), values1 !! "account_id" = Some av /\ Region_.from_id av = Ok rg /\
                  v' = <["_region" := VRegion rg]> values1)).
Proof.
  unfold set_id, try_except. intros Hset.
  destruct (_ ≫= _) as [res|] eqn:Hbody in Hset; [|done].
  injection Hset as ->.
  apply bind_Ok in Hbody as (vid & Hvid%dict_get_Ok & Hbody).
  apply bind_Ok in Hbody as (values1 & Hv1 & Hreg%region_stage_inv).
  exists vid, values1. split; [done|]. split; [|done].
  destruct (decide (vid = VNone)) as [-> | Hne].
  - right. split; [done|].
    apply bind_Ok in Hv1 as (x1 & _ & Hv1).
    apply bind_Ok in Hv1 as (x2 & _ & Hv1).
    apply bind_Ok in Hv1 as (x3 & _ & Hv1).
    apply bind_Ok in Hv1 as (oid & _ & Hv1).
    injection Hv1 as <-. by exists oid.
  - left. split; [done|]. by injection Hv1 as <-.
Qed.

(** Fields that hold an identifier and a region pass [set_id] as they
    are. *)
Lemma set_id_fixed values vid y :
  values !! "id" = Some vid -> vid <> VNone ->
  values !! "_region" = Some y -> y <> VNone ->
  set_id values = Ok values.
Proof.
  intros Hid Hne Hy Hyne. unfold set_id, dict_get. rewrite Hid.
  cbn [mbind result_bind]. rewrite decide_False by done.
  cbn [mbind result_bind]. rewrite Hy. by destruct y.
Qed.

(** Without an identifier and with components within the widths,
    [set_id] returns. *)
Lemma set_id_succeeds values a t l :
  values !! "id" = Some VNone ->
  values !! "account_id" = Some (VInt a) ->
  values !! "last_battle_time" = Some (VInt l) ->
  values !! "tank_id" = Some (VInt t) ->
  in_range a t l ->
  exists v', set_id values = Ok v'.
Proof.
  intros Hid Ha Hl Ht Hin. destruct (mk_id_fit _ _ _ Hin) as (oid & Hoid & _).
  unfold set_id, dict_get. rewrite Hid. cbn [mbind result_bind].
  rewrite decide_True by done. rewrite Ha, Hl, Ht. cbn [mbind result_bind].
  rewrite Hoid. cbn [mbind result_bind].
  rewrite !lookup_insert_ne by done. rewrite Ha. cbn [mbind result_bind].
  rewrite from_id_int. cbn [mbind result_bind try_except].
  destruct (values !! "_region") as [[]|]; by eexists.
Qed.

Lemma values_example_lookups vid :
  values_example vid !! "id" = Some vid /\
  values_example vid !! "account_id" = Some (VInt 1) /\
  values_example vid !! "last_battle_time" = Some (VInt 3) /\
  values_example vid !! "tank_id" = Some (VInt 2) /\
  values_example vid !! "_region" = None.
Proof. unfold values_example. repeat split; by simplify_map_eq. Qed.

Lemma in_range_1_2_3 : in_range 1 2 3.
Proof. unfold in_range. lia. Qed.

(** X17: [set_id] writes only the identifier and the region, and a
    constructed record is stable: after any later assignment to another
    field the validator returns the fields as they are, so the
    identifier is not derived again when a component changes. *)
Theorem set_id_frame values v' :
  set_id values = Ok v' ->
  (forall k, k <> "id" -> k <> "_region" -> v' !! k = values !! k) /\
  set_id v' = Ok v' /\
  (forall k x, k <> "id" -> k <> "_region" ->
     set_id (<[k := x]> v') = Ok (<[k := x]> v') /\
     <[k := x]> v' !! "id" = v' !! "id").
Proof.
  intros Hset.
  destruct (set_id_inv _ _ Hset) as (vid & values1 & Hvid & H1 & H2).
  assert (exists i, v' !! "id" = Some i /\ i <> VNone) as (i & Hi & Hine).
  { destruct H1 as [[Hne ->] | [-> [oid ->]]];
      destruct H2 as [(y & _ & _ & ->) | (_ & av & rg & _ & _ & ->)];
      eexists; (split; [by simplify_map_eq | done]). }
  assert (exists y, v' !! "_region" = Some y /\ y <> VNone) as (y & Hy & Hyne).
  { destruct H2 as [(y & Hy & Hyne & ->) | (_ & av & rg & _ & _ & ->)].
    - by exists y.
    - eexists. split; [by simplify_map_eq | done]. }
  split; [|split].
  - intros k Hk1 Hk2.
    destruct H1 as [[Hne ->] | [-> [oid ->]]];
      destruct H2 as [(? & _ & _ & ->) | (_ & av & rg & _ & _ & ->)];
      by simplify_map_eq.
  - by eapply set_id_fixed.
  - intros k x Hk1 Hk2. split; [|by simplify_map_eq].
    eapply set_id_fixed; [| exact Hine | | exact Hyne]; by simplify_map_eq.
Qed.

Lemma set_id_frame_witness :
  exists v',
    set_id (values_example VNone) = Ok v' /\
    set_id (<["last_battle_time" := VInt 4]> v') = Ok (<["last_battle_time" := VInt 4]> v').
Proof.
  destruct (values_example_lookups VNone) as (Hid & Ha & Hl & Ht & _).
  destruct (set_id_succeeds _ 1 2 3 Hid Ha Hl Ht in_range_1_2_3) as [v' Hset].
  destruct (set_id_frame _ _ Hset) as (_ & _ & Hstable).
  exists v'. split; [exact Hset|].
  apply (Hstable "last_battle_time" (VInt 4)); discriminate.
Defined.



(** X19: on integer components and without a supplied identifier,
    [set_id] returns exactly when the components are unsigned values
    within the widths, and raises [ValueError] otherwise, so a record
    with an overflowing component cannot be constructed; with a supplied
    identifier the components are not checked and the fields are
    accepted. *)
Theorem set_id_checks_widths values a t l :
  values !! "account_id" = Some (VInt a) ->
  values !! "last_battle_time" = Some (VInt l) ->
  values !! "tank_id" = Some (VInt t) ->
  (values !! "id" = Some VNone ->
   ((exists v', set_id values = Ok v') <-> in_range a t l) /\
   (~ in_range a t l -> set_id values = Raise ValueError)) /\
  (forall o, values !! "id" = Some (VObjectId o) -> exists v', set_id values = Ok v').
Proof.
  intros Ha Hl Ht. split.
  - intros Hid.
    assert (~ in_range a t l -> set_id values = Raise ValueError) as Hout.
    { intros Hout. unfold set_id, dict_get. rewrite Hid. cbn [mbind result_bind].
      rewrite decide_True by done. rewrite Ha, Hl, Ht. cbn [mbind result_bind].
      by rewrite (mk_id_out _ _ _ Hout). }
    split; [|exact Hout]. split.
    + intros [v' Hv']. destruct (decide (in_range a t l)) as [|Hn]; [done|].
      by rewrite (Hout Hn) in Hv'.
    + intros Hin. by eapply set_id_succeeds.
  - intros o Hid. unfold set_id, dict_get. rewrite Hid. cbn [mbind result_bind].
    rewrite decide_False by done. cbn [mbind result_bind]. rewrite Ha.
    cbn [mbind result_bind]. rewrite from_id_int. cbn [mbind result_bind try_except].
    destruct (values !! "_region") as [[]|]; by eexists.
Qed.

Lemma set_id_checks_widths_witness :
  set_id (<["account_id" := VInt (2 ^ 40)]> (values_example VNone)) = Raise ValueError /\
  exists v', set_id (<["account_id" := VInt (2 ^ 40)]>
                       (values_example (VObjectId supplied_id))) = Ok v'.
Proof.
  split.
  - destruct (values_example_lookups VNone) as (Hid & _ & Hl & Ht & _).
    destruct (set_id_checks_widths
                (<["account_id" := VInt (2 ^ 40)]> (values_example VNone)) (2 ^ 40) 2 3)
      as [Hnone _];
      [apply lookup_insert_eq | by rewrite lookup_insert_ne.. |].
    apply Hnone; [by rewrite lookup_insert_ne|].
    unfold in_range. lia.
  - destruct (values_example_lookups (VObjectId supplied_id)) as (Hid & _ & Hl & Ht & _).
    destruct (set_id_checks_widths
                (<["account_id" := VInt (2 ^ 40)]> (values_example (VObjectId supplied_id)))
                (2 ^ 40) 2 3)
      as [_ Hsupplied];
      [apply lookup_insert_eq | by rewrite lookup_insert_ne.. |].
    apply (Hsupplied supplied_id). by rewrite lookup_insert_ne.
Defined.

End TankStatMore.

(** ** The upload of a replay *)

Section ClientMore.

Import Client.

Context `{Ext : External} {W : Type} `{Svc : Service W}.

Implicit Types (w : W) (url : string) (headers : list (string * string))
  (payload : string * list Z).



(** One iteration of the retry loop. *)
Lemma run_post_loop_S n url headers payload w :
  run (post_loop (S n) url headers payload) w =
  let '(r, w1) := serve_post url headers payload w in
  match attempt r with
  | Some replay => (Some replay, w1, [EvPost url headers payload])
  | None =>
      let '(a, w2, tr) := run (post_loop n url headers payload) w1 in
      (a, w2, EvPost url headers payload :: EvSleep SLEEP :: tr)
  end.
Proof.
  cbn [post_loop run]. destruct (serve_post url headers payload w) as [r w1].
  unfold attempt.
  destruct r as [resp|e];
    [|cbn [run]; by destruct (run _ w1) as [[? ?] ?]].
  destruct (resp_status resp =? 200);
    [|cbn [run]; by destruct (run _ w1) as [[? ?] ?]].
  destruct (resp_text resp) as [body|e];
    [|cbn [run]; by destruct (run _ w1) as [[? ?] ?]].
  destruct (from_str body); [done|].
  cbn [run]; by destruct (run _ w1) as [[? ?] ?].
Qed.


Lemma run_prog_bind {A B} (m : prog A) (f : A -> prog B) w :
  run (m ≫= f) w =
  let '(a, w1, tr1) := run m w in
  let '(b, w2, tr2) := run (f a) w1 in
  (b, w2, tr1 ++ tr2).
Proof.
  revert w. induction m as [a | url k IH | url h pl k IH | secs k IH]; intros w.
  - change (run (f a) w = let '(b, w2, tr2) := run (f a) w in (b, w2, [] ++ tr2)).
    by destruct (run (f a) w) as [[? ?] ?].
  - change (run (GetJSONModel url k ≫= f) w) with
      (let '(r, w1) := serve_get url w in
       let '(a, w2, tr) := run (k r ≫= f) w1 in (a, w2, EvGet url :: tr)).
    cbn [run]. destruct (serve_get url w) as [r w1]. rewrite IH.
    destruct (run (k r) w1) as [[a w2] tr1]. by destruct (run (f a) w2) as [[? ?] ?].
  - change (run (SessionPost url h pl k ≫= f) w) with
      (let '(r, w1) := serve_post url h pl w in
       let '(a, w2, tr) := run (k r ≫= f) w1 in (a, w2, EvPost url h pl :: tr)).
    cbn [run]. destruct (serve_post url h pl w) as [r w1]. rewrite IH.
    destruct (run (k r) w1) as [[a w2] tr1]. by destruct (run (f a) w2) as [[? ?] ?].
  - change (run (Sleep secs k ≫= f) w) with
      (let '(a, w2, tr) := run (k ≫= f) w in (a, w2, EvSleep secs :: tr)).
    cbn [run]. rewrite IH.
    destruct (run k w) as [[a w2] tr1]. by destruct (run (f a) w2) as [[? ?] ?].
Qed.

(** The run of [post_replay] when the lookup gives no record: the lookup,
    then the retry loop. *)
Lemma run_post_replay_upload self data filename account_id title priv w w1 res :
  serve_get (get_url_replay_JSON (md5_hexdigest data)) w = (res, w1) ->
  (forall r, res <> Ok (Some r)) ->
  run (post_replay self data filename account_id title priv) w =
  let '(a, w2, tr) :=
    run (post_loop MAX_RETRIES (upload_url data account_id title priv) upload_headers
           (upload_payload filename data)) w1 in
  (mkClient (REPLAY_N self + 1), a, w2,
   EvGet (get_url_replay_JSON (md5_hexdigest data)) :: tr).
Proof.
  intros Hget Hnone. rewrite run_post_replay. cbv zeta. rewrite Hget.
  assert (match res with Ok replay => replay | Raise _ => None end = None) as ->.
  { destruct res as [[r|]|]; [by destruct (Hnone r) | done | done]. }
  rewrite run_prog_bind.
  fold (upload_url data account_id title priv). fold upload_headers.
  fold (upload_payload filename data).
  destruct (run (post_loop _ _ _ _) w1) as [[a w2] tr]. simpl. by rewrite app_nil_r.
Qed.



(** X22: when the lookup gives no record and the first upload is
    answered with status 200 and a body that parses, [post_replay]
    returns the parsed record after that single upload, without a
    sleep. *)
Theorem post_replay_first_upload self data filename account_id title priv w w1 res
    answer w2 replay :
  let out := run (post_replay self data filename account_id title priv) w in
  let u := upload_url data account_id title priv in
  let p := upload_payload filename data in
  serve_get (get_url_replay_JSON (md5_hexdigest data)) w = (res, w1) ->
  (forall r, res <> Ok (Some r)) ->
  serve_post u upload_headers p w1 = (answer, w2) ->
  attempt answer = Some replay ->
  out.1.1.2 = Some replay /\
  out.1.2 = w2 /\
  out.2 = [EvGet (get_url_replay_JSON (md5_hexdigest data)); EvPost u upload_headers p].
Proof.
  intros out u p Hget Hnone Hpost Hatt. subst out.
  rewrite (run_post_replay_upload _ _ _ _ _ _ _ _ _ Hget Hnone). fold u p.
  unfold MAX_RETRIES. rewrite run_post_loop_S, Hpost, Hatt. done.
Qed.

End ClientMore.



Lemma post_replay_first_upload_witness :
  (run (Svc := service_accepting)
     (Client.post_replay (Ext := external_parsing) (mkClient 1) [1; 2; 3]
        "Replay" 0 "Replay" false) tt).1.1.2 = Some (replay_example win wt_one).
Proof.
  apply (post_replay_first_upload (Ext := external_parsing) (Svc := service_accepting)
           (mkClient 1) [1; 2; 3] "Replay" 0 "Replay" false tt tt (Raise OtherError)
           (Ok (mkResponse 200 (Ok "{}"))) tt (replay_example win wt_one));
    try reflexivity.
  intros r. discriminate.
Defined.
